(** * A download relay handler: cookie file parsing, variant selection,
      response headers, streaming events and error classification.

    The repository holds two revisions of one HTTP handler:
    - [src/api/download.js]   (CommonJS, embedded in [Module Api]);
    - [src/unnamed/part_000]  (ES module, embedded in [Module Part000]).

    Both are embedded function by function.  The third-party pieces they call
    ([ytdl-core], Node's [fs], the response object and Node streams) are not
    part of the repository: the resolver is a record of functions handed to
    the handler, the file system is the state of the one file that is read,
    and the response and the stream are a small state machine. *)

From Stdlib Require Import ZArith List Ascii String Bool Lia Sorted Permutation.
From stdpp Require Import base gmap strings.
Import ListNotations.

Local Open Scope Z_scope.

(* ===================================================================== *)
(** ** JavaScript string and array primitives used by the handlers       *)
(* ===================================================================== *)

(** A JavaScript string is a sequence of code units; the model keeps the code
    units below 256, so a character is an [ascii]. *)
Module JS.

Definition tab : ascii := "009"%char.
Definition newline : ascii := "010"%char.
Definition dquote : ascii := "034"%char.
Definition backslash : ascii := "092"%char.

(** [WhiteSpace] and [LineTerminator] of ECMAScript below 256: TAB, LF, VT,
    FF, CR, SPACE and NBSP.  [String.prototype.trim] strips them and the
    regular expression class [\s] matches them. *)
Definition isWhiteSpace (c : ascii) : bool :=
  match c with
  | "009" | "010" | "011" | "012" | "013" | " " | "160" => true
  | _ => false
  end%char.

(** Truthiness of a string: every string but the empty one. *)
Definition truthy (s : string) : bool :=
  match s with
  | EmptyString => false
  | String _ _ => true
  end.

Fixpoint trimStart (s : string) : string :=
  match s with
  | EmptyString => EmptyString
  | String c s' => if isWhiteSpace c then trimStart s' else s
  end.

Fixpoint trimEnd (s : string) : string :=
  match s with
  | EmptyString => EmptyString
  | String c s' =>
      match trimEnd s' with
      | EmptyString => if isWhiteSpace c then EmptyString else String c EmptyString
      | r => String c r
      end
  end.

(** [s.trim()] *)
Definition trim (s : string) : string := trimEnd (trimStart s).

(** [s.startsWith(p)] *)
Definition startsWith (s p : string) : bool := String.prefix p s.

(** [s.includes(sub)] *)
Fixpoint includes (s sub : string) : bool :=
  match s with
  | EmptyString => String.prefix sub EmptyString
  | String _ s' => String.prefix sub s || includes s' sub
  end.

(** [s.split(sep)] for a separator of one character: the result is never
    empty, and the empty string splits into one empty field. *)
Fixpoint split (sep : ascii) (s : string) : list string :=
  match s with
  | EmptyString => [EmptyString]
  | String c s' =>
      if Ascii.eqb c sep then EmptyString :: split sep s'
      else match split sep s' with
           | f :: fs => String c f :: fs
           | [] => [String c EmptyString]
           end
  end.

(** [a.join(sep)] on an array of strings *)
Definition join (sep : string) (a : list string) : string := String.concat sep a.

(** [a[i]] on an array of strings, read where the index is in range *)
Definition at_ (a : list string) (i : nat) : string := nth i a EmptyString.

(** [s.substring(0, n)] *)
Definition substring0 (n : nat) (s : string) : string := String.substring 0 n s.

(** [s || d] on strings *)
Definition orElse (s d : string) : string := if truthy s then s else d.

(** [s.replace(/[...]/g, r)] for a character class [cls] and a replacement of
    one character *)
Fixpoint replaceClass (cls : ascii -> bool) (r : ascii) (s : string) : string :=
  match s with
  | EmptyString => EmptyString
  | String c s' => String (if cls c then r else c) (replaceClass cls r s')
  end.

(** [s.replace(/\s+/g, r)]: every maximal run of white space becomes one [r];
    [inRun] tells that the previous character was white space. *)
Fixpoint replaceRuns (inRun : bool) (r : ascii) (s : string) : string :=
  match s with
  | EmptyString => EmptyString
  | String c s' =>
      if isWhiteSpace c
      then (if inRun then replaceRuns true r s' else String r (replaceRuns true r s'))
      else String c (replaceRuns false r s')
  end.

End JS.

(* ===================================================================== *)
(** ** Exceptions                                                         *)
(* ===================================================================== *)

(** A JavaScript computation completes normally with a value or throws an
    error; the handlers only ever read the error's [message]. *)
Inductive Completion (A : Type) : Type :=
| Normal (a : A)
| Throw (message : string).
Arguments Normal {A} a.
Arguments Throw {A} message.

#[global] Instance Completion_ret : MRet Completion := fun A a => Normal a.

#[global] Instance Completion_bind : MBind Completion := fun A B k m =>
  match m with
  | Normal a => k a
  | Throw e => Throw e
  end.

(** [try { body } catch (e) { handler(e.message) }] *)
Definition tryCatch {A : Type} (body : Completion A) (handler : string -> Completion A)
  : Completion A :=
  match body with
  | Normal a => Normal a
  | Throw e => handler e
  end.

(* ===================================================================== *)
(** ** The cookie file                                                    *)
(* ===================================================================== *)

(** What [fs] can find at [cookies.txt]: nothing, a file whose read fails, or a
    file with a text. *)
Inductive CookieFile : Type :=
| Absent
| Unreadable (err : string)
| Content (text : string).

Definition existsSync (f : CookieFile) : bool :=
  match f with
  | Absent => false
  | Unreadable _ | Content _ => true
  end.

Definition readFileSync (f : CookieFile) : Completion string :=
  match f with
  | Content text => Normal text
  | Unreadable err => Throw err
  | Absent => Throw "ENOENT: no such file or directory"
  end.

(* ===================================================================== *)
(** ** The resolver library and the response                              *)
(* ===================================================================== *)

(** A format of [info.formats], with the fields the handlers read.  [height]
    and [contentLength] may be [undefined]; [contentLength] is a string of
    digits when present; [itag] identifies the format. *)
Record Format : Type := mkFormat {
  itag : Z;
  container : string;
  hasVideo : bool;
  hasAudio : bool;
  height : option Z;
  contentLength : option string
}.

(** [info]: [info.formats] and [info.videoDetails.title]. *)
Record Info : Type := mkInfo {
  formats : list Format;
  title : string
}.

(** [requestOptions]: [{}], or [{ headers: {...} }]. *)
Record RequestOptions : Type := mkRequestOptions {
  ro_headers : option (gmap string string)
}.

(** The two calls into [ytdl-core] whose result depends on the network:
    [ytdl.validateURL(url)] and [await ytdl.getInfo(url, { requestOptions })],
    which resolves to an [info] or rejects with an error. *)
Record Ytdl : Type := mkYtdl {
  validateURL : string -> bool;
  getInfo : string -> RequestOptions -> Completion Info
}.

(** Modelled from the spec: [ytdl.filterFormats] belongs to [ytdl-core], which
    is not in the repository.  With the filter ['videoandaudio'] it keeps the
    variants where both the video and the audio component are present, in the
    order of its argument. *)
Definition filterFormats_videoandaudio (fs : list Format) : list Format :=
  List.filter (fun format => hasVideo format && hasAudio format) fs.

(** The request, as far as the handlers read it: [req.method] and
    [req.query.url]. *)
Record Request : Type := mkRequest {
  method : string;
  query_url : option string
}.

(** The response object: the status, the headers set so far, whether the
    headers have gone out ([res.headersSent]), the JSON payload sent by
    [res.json], the chunks written to the body, and whether it is ended. *)
Record Response : Type := mkResponse {
  statusCode : Z;
  headers : gmap string string;
  headersSent : bool;
  json : option (gmap string string);
  body : list string;
  ended : bool
}.

(** A step of a [try] block that works on the response: it completes with a
    value, or it throws, and the [catch] block then finds the response as it
    is at that moment. *)
Inductive Attempt (A : Type) : Type :=
| Done (a : A)
| Raised (message : string) (r : Response).
Arguments Done {A} a.
Arguments Raised {A} message r.

#[global] Instance Attempt_bind : MBind Attempt := fun A B k m =>
  match m with
  | Done a => k a
  | Raised message r => Raised message r
  end.

(** A call that does not touch the response, made while the response is [r]. *)
Definition attempt {A : Type} (m : Completion A) (r : Response) : Attempt A :=
  match m with
  | Normal a => Done a
  | Throw message => Raised message r
  end.

Module Res.

Definition fresh : Response :=
  {| statusCode := 200; headers := ∅; headersSent := false;
     json := None; body := []; ended := false |}.

(** What [res.setHeader(name, value)] does with a value it accepts: the
    header is stored. *)
Definition setHeader (name value : string) (r : Response) : Response :=
  {| statusCode := statusCode r; headers := <[name := value]> (headers r);
     headersSent := headersSent r; json := json r; body := body r;
     ended := ended r |}.

(** The characters Node accepts in the value of a header: TAB, the printable
    characters of ASCII and the code units from 128 on. *)
Definition validHeaderChar (c : ascii) : bool :=
  let n := N_of_ascii c in
  ((n =? 9) || (32 <=? n) && (n <=? 126) || (128 <=? n))%N.

Fixpoint validHeaderValue (value : string) : bool :=
  match value with
  | EmptyString => true
  | String c value' => validHeaderChar c && validHeaderValue value'
  end.

(** [res.setHeader(name, value)] as Node runs it: on a value with a character
    that may not stand in a header it throws [ERR_INVALID_CHAR] and stores
    nothing. *)
Definition trySetHeader (name value : string) (r : Response) : Attempt Response :=
  if validHeaderValue value
  then Done (setHeader name value r)
  else Raised ("Invalid character in header content [" +:+
               String JS.dquote (name +:+ String JS.dquote "]")) r.

(** [res.status(code).json(payload)]: the status line, the headers and the
    payload go out and the response is ended. *)
Definition statusJson (code : Z) (payload : gmap string string) (r : Response)
  : Response :=
  {| statusCode := code; headers := headers r; headersSent := true;
     json := Some payload; body := body r; ended := true |}.

(** [res.write(chunk)], as [pipe] calls it: the first write sends the headers. *)
Definition write (chunk : string) (r : Response) : Response :=
  {| statusCode := statusCode r; headers := headers r; headersSent := true;
     json := json r; body := body r ++ [chunk]; ended := ended r |}.

(** [res.end()], as [pipe] calls it when the source ends. *)
Definition end_ (r : Response) : Response :=
  {| statusCode := statusCode r; headers := headers r; headersSent := true;
     json := json r; body := body r; ended := true |}.

End Res.

(** The stream [ytdl(url, options)] returns.  It flows into the response until
    it ends, emits ['error'], or is destroyed; after any of these it emits
    nothing more.  [Unpiped] is the stream whose response has closed without
    the stream being destroyed: [pipe] has detached and paused it, so it
    delivers no chunk and does not end, but it is still open and can still
    emit ['error']. *)
Inductive StreamState : Type := Flowing | Ended | Errored | Destroyed | Unpiped.

Record VideoStream : Type := mkVideoStream {
  vs_format : Format;
  vs_options : RequestOptions;
  vs_state : StreamState
}.

(** What the handler leaves behind when it returns: the response, the stream
    it has opened and piped into the response, if it got that far, and whether
    the request has emitted its ['close'] already.  The listeners on the
    stream and on the request are registered exactly when the stream is
    opened; a listener of ['close'] that is registered after the request has
    emitted ['close'] is never called, for a request emits it once. *)
Record Conn : Type := mkConn {
  res : Response;
  videoStream : option VideoStream;
  reqClosed : bool
}.

(** What can happen after the handler has returned: the stream delivers a
    chunk, emits ['error'], ends, or the client closes the connection. *)
Inductive Event : Type :=
| Data (chunk : string)
| StreamError (message : string)
| StreamEnd
| ReqClose.

(** *** Cookie loading of [src/api/download.js], lines 38-80 *)
Module Api.
Import JS.

(** The body of the [for] loop, lines 54-68: the token the line pushes, if
    any. *)
Definition lineToken (line : string) : option string :=
  let trimmedLine := trim line in
  if negb (truthy trimmedLine)
     || startsWith trimmedLine "#" || startsWith trimmedLine "//"
  then None
  else
    let parts := split tab trimmedLine in
    if (7 <=? length parts)%nat then
      let cookieName := at_ parts 5 in
      let cookieValue := at_ parts 6 in
      if truthy cookieName && truthy cookieValue
      then Some (cookieName +:+ "=" +:+ cookieValue)
      else None
    else None.

(** The loop of lines 51-69, pushing on [cookies]. *)
Definition parseLines (cookieLines : list string) : list string :=
  fold_left
    (fun cookies line =>
       match lineToken line with
       | Some token => cookies ++ [token]
       | None => cookies
       end)
    cookieLines [].

(** Lines 47-75, inside the [try]. *)
Definition readCookies (f : CookieFile) : Completion string :=
  cookiesContent ← readFileSync f;
  let cookieLines := split newline cookiesContent in
  let cookies := parseLines cookieLines in
  if (0 <? length cookies)%nat then Normal (join "; " cookies) else Normal "".

(** Lines 39-80: [cookieHeader] after the [if]/[else]. *)
Definition loadCookies (f : CookieFile) : Completion string :=
  if negb (existsSync f) then Normal ""
  else tryCatch (readCookies f) (fun _ => Normal "").

(** Lines 83-90: [requestOptions]. *)
Definition requestOptions (cookieHeader : string) : RequestOptions :=
  if truthy cookieHeader
  then {| ro_headers := Some (<["User-Agent" :=
            "Mozilla/5.0 (Windows NT 10.0; Win64; x64) AppleWebKit/537.36"]>
            {["Cookie" := cookieHeader]}) |}
  else {| ro_headers := None |}.

(** Lines 97-113: the selected format, or [None] where the handler returns
    the 400 of line 103.  [formats.length === 0] is the empty array, and
    [formats[0]] its first element otherwise. *)
Definition selectFormat (info_formats : list Format) : option Format :=
  let formats := filterFormats_videoandaudio info_formats in
  match formats with
  | [] =>
      let videoFormats := List.filter (fun format => hasVideo format) info_formats in
      match videoFormats with
      | [] => None
      | first :: _ => Some first
      end
  | first :: _ => Some first
  end.

(** The class of the regular expression of line 117. *)
Definition unsafeChar (c : ascii) : bool :=
  match c with
  | "<" | ">" | ":" | "034" | "/" | "092" | "|" | "?" | "*" => true
  | _ => false
  end%char.

(** Lines 116-119. *)
Definition safeFilename (title : string) : string :=
  orElse (substring0 100 (replaceRuns false "_" (replaceClass unsafeChar "_" title)))
         "video".

(** Lines 121-127.  Each [setHeader] can throw, and a header set before the
    throw stays set. *)
Definition setDownloadHeaders (title : string) (selectedFormat : Format)
    (r : Response) : Attempt Response :=
  r1 ← Res.trySetHeader "Content-Type" "video/mp4" r;
  r2 ← Res.trySetHeader "Content-Disposition"
         ("attachment; filename=" +:+
          String dquote (safeFilename title +:+ ".mp4" +:+ String dquote ""))
         r1;
  match contentLength selectedFormat with
  | Some len => if truthy len then Res.trySetHeader "Content-Length" len r2 else Done r2
  | None => Done r2
  end.

(** Lines 161-190: the [catch] block, on the message of the caught error. *)
Definition catchError (message : string) (r : Response) : Response :=
  if includes message "private" || includes message "unavailable" then
    Res.statusJson 403
      (<["note" := "If testing private videos, ensure cookies.txt contains valid authentication cookies"]>
         {["error" := "Video is private or unavailable"]}) r
  else if includes message "cookies" || includes message "authentication" then
    Res.statusJson 403
      (<["note" := "Check cookies.txt file for valid YouTube session cookies"]>
         {["error" := "Authentication required"]}) r
  else if includes message "format" then
    Res.statusJson 400
      (<["details" := message]> {["error" := "No supported format available"]}) r
  else
    Res.statusJson 500
      (<["details" := substring0 100 message]>
         {["error" := "Failed to process download request"]}) r.

(** Lines 18-160: the [try] block.  Every [return res.status(..).json(..)]
    leaves the handler.  The cookie loading, [ytdl.getInfo] and the calls of
    [res.setHeader] can throw.  The listeners of lines 15-16 start the request
    flowing; a [GET] carries no body, so the request ends at once and emits
    its ['close'] while the handler awaits [ytdl.getInfo] (line 94): from
    there on [reqClosed] holds, and the listener that line 156 registers comes
    too late to be called. *)
Definition tryBlock (ytdl : Ytdl) (cookieFile : CookieFile) (req : Request)
    (r : Response) : Attempt Conn :=
  match query_url req with
  | None =>
      Done {| res := Res.statusJson 400
                (<["usage" := "/api/download?url=YOUTUBE_URL"]>
                   {["error" := "Missing required parameter: url"]}) r;
              videoStream := None; reqClosed := false |}
  | Some url =>
      if negb (truthy url) then
        Done {| res := Res.statusJson 400
                  (<["usage" := "/api/download?url=YOUTUBE_URL"]>
                     {["error" := "Missing required parameter: url"]}) r;
                videoStream := None; reqClosed := false |}
      else if negb (validateURL ytdl url) then
        Done {| res := Res.statusJson 400
                  (<["example" := "https://www.youtube.com/watch?v=dQw4w9WgXcQ"]>
                     {["error" := "Invalid YouTube URL format"]}) r;
                videoStream := None; reqClosed := false |}
      else
        cookieHeader ← attempt (loadCookies cookieFile) r;
        let options := requestOptions cookieHeader in
        info ← attempt (getInfo ytdl url options) r;
        match selectFormat (formats info) with
        | None =>
            Done {| res := Res.statusJson 400
                      {["error" := "No downloadable format available for this video"]} r;
                    videoStream := None; reqClosed := true |}
        | Some selectedFormat =>
            r' ← setDownloadHeaders (title info) selectedFormat r;
            Done {| res := r';
                    videoStream :=
                      Some {| vs_format := selectedFormat; vs_options := options;
                              vs_state := Flowing |};
                    reqClosed := true |}
        end
  end.

(** Lines 8-191: the handler, up to the point where it returns.  The calls of
    [console] leave the response untouched and are left out.  The [catch]
    block works on the response as the [try] block left it. *)
Definition handler (ytdl : Ytdl) (cookieFile : CookieFile) (req : Request) : Conn :=
  if negb (String.eqb (method req) "GET") then
    {| res := Res.statusJson 405 {["error" := "Method not allowed. Use GET."]} Res.fresh;
       videoStream := None; reqClosed := false |}
  else
    match tryBlock ytdl cookieFile req Res.fresh with
    | Done c => c
    | Raised message r =>
        {| res := catchError message r; videoStream := None; reqClosed := true |}
    end.

(** Lines 140-145: the ['error'] listener of the stream. *)
Definition onStreamError (message : string) (r : Response) : Response :=
  if negb (headersSent r)
  then Res.statusJson 500
         (<["details" := message]> {["error" := "Stream failed"]}) r
  else r.

(** One event after the handler has returned.  A chunk goes through
    [videoStream.pipe(res)] (line 148), an error to the listener of line
    140, and the end of the stream ends the response through [pipe].
    When the client closes the connection, the request emits ['close'] and
    the listener of line 156 destroys the stream, unless the request
    has emitted its ['close'] before and the listener is never called: then
    the closing response only makes [pipe] detach the stream, which stays
    open.  A detached stream can still emit ['error'], to the same listener;
    a stream that has ended, failed or been destroyed emits nothing. *)
Definition step (c : Conn) (e : Event) : Conn :=
  match videoStream c with
  | None => c
  | Some vs =>
      let become r st :=
        {| res := r;
           videoStream :=
             Some {| vs_format := vs_format vs; vs_options := vs_options vs;
                     vs_state := st |};
           reqClosed := reqClosed c |} in
      match vs_state vs with
      | Flowing =>
          match e with
          | Data chunk => become (Res.write chunk (res c)) Flowing
          | StreamError message => become (onStreamError message (res c)) Errored
          | StreamEnd => become (Res.end_ (res c)) Ended
          | ReqClose => if reqClosed c then become (res c) Unpiped
                        else become (res c) Destroyed
          end
      | Unpiped =>
          match e with
          | StreamError message => become (onStreamError message (res c)) Errored
          | Data _ | StreamEnd | ReqClose => c
          end
      | Ended | Errored | Destroyed => c
      end
  end.

Definition run (c : Conn) (events : list Event) : Conn := fold_left step events c.

End Api.


(** *** Cookie loading of [src/unnamed/part_000], lines 39-77 *)
Module Part000.
Import JS.

(** The first [filter], line 59. *)
Definition keepLine (line : string) : bool :=
  truthy (trim line) && negb (startsWith line "#") && negb (startsWith line "//").

(** The [map], lines 60-66; [None] is [null]. *)
Definition lineToken (line : string) : option string :=
  let parts := split tab line in
  if (7 <=? length parts)%nat
  then Some (at_ parts 5 +:+ "=" +:+ at_ parts 6)
  else None.

(** The second [filter], line 67, drops the [null]s. *)
Definition dropNull (l : list (option string)) : list string :=
  flat_map (fun cookie => match cookie with Some c => [c] | None => [] end) l.

Definition parseLines (cookieLines : list string) : list string :=
  dropNull (map lineToken (List.filter keepLine cookieLines)).

(** Lines 51-72, inside the [try]. *)
Definition readCookies (f : CookieFile) : Completion string :=
  cookiesContent ← readFileSync f;
  let cookieLines := split newline cookiesContent in
  let cookies := parseLines cookieLines in
  if (0 <? length cookies)%nat then Normal (join "; " cookies) else Normal "".

(** Lines 46-77: [cookieHeader] after the [if]. *)
Definition loadCookies (f : CookieFile) : Completion string :=
  if existsSync f
  then tryCatch (readCookies f) (fun _ => Normal "")
  else Normal "".

(** Lines 80-86: [requestOptions]. *)
Definition requestOptions (cookieHeader : string) : RequestOptions :=
  if truthy cookieHeader
  then {| ro_headers := Some {["Cookie" := cookieHeader]} |}
  else {| ro_headers := None |}.

(** [Array.prototype.sort(compare)] is stable.  With a comparator that is the
    difference of a key of its arguments the sorted array is the one stable
    arrangement by that key, which insertion from the right computes: an
    element goes in front of the first element it does not exceed. *)
Fixpoint insertSorted {A : Type} (compare : A -> A -> Z) (x : A) (l : list A) : list A :=
  match l with
  | [] => [x]
  | y :: l' => if compare x y <=? 0 then x :: l else y :: insertSorted compare x l'
  end.

Fixpoint sort {A : Type} (compare : A -> A -> Z) (l : list A) : list A :=
  match l with
  | [] => []
  | x :: l' => insertSorted compare x (sort compare l')
  end.

(** Line 107: [format.height || 0]. *)
Definition getHeight (format : Format) : Z :=
  match height format with
  | Some h => if h =? 0 then 0 else h
  | None => 0
  end.

(** Lines 106-109: the comparator. *)
Definition compareHeight (a b : Format) : Z := getHeight a - getHeight b.

(** Lines 93-97: the filter. *)
Definition isMp4VideoAndAudio (format : Format) : bool :=
  String.eqb (container format) "mp4" && hasVideo format && hasAudio format.

(** Lines 93-112: the selected format, or [None] where the handler returns
    the 400 of line 100.  The sorted array is as long as [formats], so past
    the test of line 99 [sortedFormats[0]] is always there (lemma
    [part000_sort_length]). *)
Definition selectFormat (info_formats : list Format) : option Format :=
  let formats := List.filter isMp4VideoAndAudio info_formats in
  match formats with
  | [] => None
  | _ :: _ =>
      let sortedFormats := sort compareHeight formats in
      match sortedFormats with
      | first :: _ => Some first
      | [] => None
      end
  end.

(** The complement of the class of the regular expression of line 116, with
    its flag [i]: the letters and digits of ASCII. *)
Definition alnum (c : ascii) : bool :=
  let n := N_of_ascii c in
  ((48 <=? n) && (n <=? 57) || (65 <=? n) && (n <=? 90) || (97 <=? n) && (n <=? 122))%N.

(** Lines 115-117. *)
Definition safeFilename (title : string) : string :=
  orElse (substring0 50 (replaceClass (fun c => negb (alnum c)) "_" title)) "video".

(** Lines 119-121.  Each [setHeader] can throw, and a header set before the
    throw stays set. *)
Definition setDownloadHeaders (title : string) (selectedFormat : Format)
    (r : Response) : Attempt Response :=
  r1 ← Res.trySetHeader "Content-Type" "video/mp4" r;
  r2 ← Res.trySetHeader "Content-Disposition"
         ("attachment; filename=" +:+
          String dquote (safeFilename title +:+ ".mp4" +:+ String dquote ""))
         r1;
  Res.trySetHeader "Content-Length"
    (match contentLength selectedFormat with
     | Some len => orElse len "unknown"
     | None => "unknown"
     end) r2.

(** Lines 147-167: the [catch] block, on the message of the caught error. *)
Definition catchError (message : string) (r : Response) : Response :=
  if includes message "private" || includes message "unavailable" then
    Res.statusJson 403
      {["error" := "Video unavailable. This might require authentication."]} r
  else if includes message "cookies" then
    Res.statusJson 403
      {["error" := "Authentication required. Check cookies.txt file."]} r
  else
    Res.statusJson 500
      (<["details" := message]> {["error" := "Failed to process download request"]}) r.

(** Lines 21-146: the [try] block; see [Api.tryBlock].  Nothing reads the
    request here, so it has not emitted ['close'] when line 143 registers the
    listener. *)
Definition tryBlock (ytdl : Ytdl) (cookieFile : CookieFile) (req : Request)
    (r : Response) : Attempt Conn :=
  match query_url req with
  | None =>
      Done {| res := Res.statusJson 400
                {["error" := "Missing required parameter: url"]} r;
              videoStream := None; reqClosed := false |}
  | Some url =>
      if negb (truthy url) then
        Done {| res := Res.statusJson 400
                  {["error" := "Missing required parameter: url"]} r;
                videoStream := None; reqClosed := false |}
      else if negb (validateURL ytdl url) then
        Done {| res := Res.statusJson 400
                  {["error" := "Invalid YouTube URL format"]} r;
                videoStream := None; reqClosed := false |}
      else
        cookieHeader ← attempt (loadCookies cookieFile) r;
        let options := requestOptions cookieHeader in
        info ← attempt (getInfo ytdl url options) r;
        match selectFormat (formats info) with
        | None =>
            Done {| res := Res.statusJson 400
                      {["error" := "No MP4 format available for this video"]} r;
                    videoStream := None; reqClosed := false |}
        | Some selectedFormat =>
            r' ← setDownloadHeaders (title info) selectedFormat r;
            Done {| res := r';
                    videoStream :=
                      Some {| vs_format := selectedFormat; vs_options := options;
                              vs_state := Flowing |};
                    reqClosed := false |}
        end
  end.

(** Lines 15-168: the handler, up to the point where it returns.  The [catch]
    block works on the response as the [try] block left it. *)
Definition handler (ytdl : Ytdl) (cookieFile : CookieFile) (req : Request) : Conn :=
  if negb (String.eqb (method req) "GET") then
    {| res := Res.statusJson 405 {["error" := "Method not allowed. Use GET."]} Res.fresh;
       videoStream := None; reqClosed := false |}
  else
    match tryBlock ytdl cookieFile req Res.fresh with
    | Done c => c
    | Raised message r =>
        {| res := catchError message r; videoStream := None; reqClosed := false |}
    end.

(** Lines 132-137: the ['error'] listener of the stream. *)
Definition onStreamError (message : string) (r : Response) : Response :=
  if negb (headersSent r)
  then Res.statusJson 500 {["error" := "Stream failed"]} r
  else r.

(** One event after the handler has returned.  A chunk goes through
    [videoStream.pipe(res)] (line 140), an error to the listener of line
    132, and the end of the stream ends the response through [pipe].
    When the client closes the connection, the request emits ['close'] and
    the listener of line 143 destroys the stream, unless the request
    has emitted its ['close'] before and the listener is never called: then
    the closing response only makes [pipe] detach the stream, which stays
    open.  A detached stream can still emit ['error'], to the same listener;
    a stream that has ended, failed or been destroyed emits nothing. *)
Definition step (c : Conn) (e : Event) : Conn :=
  match videoStream c with
  | None => c
  | Some vs =>
      let become r st :=
        {| res := r;
           videoStream :=
             Some {| vs_format := vs_format vs; vs_options := vs_options vs;
                     vs_state := st |};
           reqClosed := reqClosed c |} in
      match vs_state vs with
      | Flowing =>
          match e with
          | Data chunk => become (Res.write chunk (res c)) Flowing
          | StreamError message => become (onStreamError message (res c)) Errored
          | StreamEnd => become (Res.end_ (res c)) Ended
          | ReqClose => if reqClosed c then become (res c) Unpiped
                        else become (res c) Destroyed
          end
      | Unpiped =>
          match e with
          | StreamError message => become (onStreamError message (res c)) Errored
          | Data _ | StreamEnd | ReqClose => c
          end
      | Ended | Errored | Destroyed => c
      end
  end.

Definition run (c : Conn) (events : list Event) : Conn := fold_left step events c.

End Part000.

(* ===================================================================== *)
(** ** Notions of the specification                                       *)
(* ===================================================================== *)

(** The states of the relay as the specification names them, read off the
    connection the handler leaves behind: a handler that returned without a
    stream has answered with an error payload, and a relay whose client has
    closed the connection is aborted, whether the stream was destroyed or
    only detached. *)
Inductive RelayState : Type := StreamingBody | Completed | Failed | Aborted.

Definition relayState (c : Conn) : RelayState :=
  match videoStream c with
  | None => Failed
  | Some vs =>
      match vs_state vs with
      | Flowing => StreamingBody
      | Ended => Completed
      | Errored => Failed
      | Destroyed | Unpiped => Aborted
      end
  end.

(** The lines of a cookie file, where there is a text to read. *)
Definition cookieLines (f : CookieFile) : list string :=
  match f with
  | Content text => JS.split JS.newline text
  | Absent | Unreadable _ => []
  end.

(** A line that is a cookie line for [src/api/download.js]: once trimmed it is
    not empty, is no comment, and has seven fields or more with a name and a
    value. *)
Definition apiCookieLine (line : string) : bool :=
  let t := JS.trim line in
  let parts := JS.split JS.tab t in
  JS.truthy t && negb (JS.startsWith t "#") && negb (JS.startsWith t "//")
  && (7 <=? length parts)%nat
  && JS.truthy (JS.at_ parts 5) && JS.truthy (JS.at_ parts 6).

(** The same for [src/unnamed/part_000], which tests and splits the line as it
    stands. *)
Definition part000CookieLine (line : string) : bool :=
  let parts := JS.split JS.tab line in
  JS.truthy (JS.trim line) && negb (JS.startsWith line "#") && negb (JS.startsWith line "//")
  && (7 <=? length parts)%nat
  && JS.truthy (JS.at_ parts 5) && JS.truthy (JS.at_ parts 6).

(** A line for which [src/unnamed/part_000] yields a token: it need not have a
    name or a value. *)
Definition part000TokenLine (line : string) : bool :=
  JS.truthy (JS.trim line) && negb (JS.startsWith line "#") && negb (JS.startsWith line "//")
  && (7 <=? length (JS.split JS.tab line))%nat.

(** The token [name=value] of fields 5 and 6. *)
Definition tokenOf (parts : list string) : string :=
  JS.at_ parts 5 +:+ "=" +:+ JS.at_ parts 6.

(** The relay is over: there is no stream, or the stream has ended, failed or
    been destroyed. *)
Definition settled (c : Conn) : bool :=
  match videoStream c with
  | None => true
  | Some vs =>
      match vs_state vs with
      | Ended | Errored | Destroyed => true
      | Flowing | Unpiped => false
      end
  end.

(** The content length of the format, where it has one, can stand in a
    header. *)
Definition lengthAccepted (format : Format) : bool :=
  match contentLength format with
  | Some len => Res.validHeaderValue len
  | None => true
  end.

(** No [setHeader] of the handler throws for this [info]: the file name
    derived from the title and the content lengths can stand in a header. *)
Definition apiHeadersAccepted (info : Info) : bool :=
  Res.validHeaderValue (Api.safeFilename (title info))
  && forallb lengthAccepted (formats info).

Definition part000HeadersAccepted (info : Info) : bool :=
  forallb lengthAccepted (formats info).

(** The response after the [setHeader] calls of lines 121-127 of
    [download.js], where none of them throws. *)
Definition apiDownloadHeaders (title : string) (selectedFormat : Format)
    (r : Response) : Response :=
  let r1 := Res.setHeader "Content-Type" "video/mp4" r in
  let r2 := Res.setHeader "Content-Disposition"
              ("attachment; filename=" +:+
               String JS.dquote (Api.safeFilename title +:+ ".mp4" +:+ String JS.dquote ""))
              r1 in
  match contentLength selectedFormat with
  | Some len => if JS.truthy len then Res.setHeader "Content-Length" len r2 else r2
  | None => r2
  end.

(** The same for lines 119-121 of [part_000]. *)
Definition part000DownloadHeaders (title : string) (selectedFormat : Format)
    (r : Response) : Response :=
  let r1 := Res.setHeader "Content-Type" "video/mp4" r in
  let r2 := Res.setHeader "Content-Disposition"
              ("attachment; filename=" +:+
               String JS.dquote
                 (Part000.safeFilename title +:+ ".mp4" +:+ String JS.dquote ""))
              r1 in
  Res.setHeader "Content-Length"
    (match contentLength selectedFormat with
     | Some len => JS.orElse len "unknown"
     | None => "unknown"
     end) r2.

(** A variant with both components, as the specification names it. *)
Definition combined (format : Format) : bool := hasVideo format && hasAudio format.

(** [f] is, among the elements of [l] that satisfy [p], the first-encountered
    one of minimum [key]: the ones before it have a greater key and the ones
    after it a key at least as great. *)
Definition firstMinAmong {A : Type} (p : A -> bool) (key : A -> Z) (f : A) (l : list A)
  : Prop :=
  p f = true /\
  exists l1 l2, l = l1 ++ f :: l2
    /\ (forall g, In g l1 -> p g = true -> key f < key g)
    /\ (forall g, In g l2 -> p g = true -> key f <= key g).

(** The format of the stream the handler opened, if it opened one. *)
Definition streamedFormat (c : Conn) : option Format :=
  match videoStream c with
  | Some vs => Some (vs_format vs)
  | None => None
  end.

(** The request is a [GET] with a [url] the resolver accepts and resolves to
    [info], under the request options the handler builds from the cookie
    file. *)
Definition apiResolves (ytdl : Ytdl) (f : CookieFile) (req : Request) (info : Info) : Prop :=
  method req = "GET" /\
  exists url, query_url req = Some url /\ JS.truthy url = true
    /\ validateURL ytdl url = true
    /\ getInfo ytdl url
         (Api.requestOptions (JS.join "; " (Api.parseLines (cookieLines f))))
       = Normal info.

Definition part000Resolves (ytdl : Ytdl) (f : CookieFile) (req : Request) (info : Info)
  : Prop :=
  method req = "GET" /\
  exists url, query_url req = Some url /\ JS.truthy url = true
    /\ validateURL ytdl url = true
    /\ getInfo ytdl url
         (Part000.requestOptions (JS.join "; " (Part000.parseLines (cookieLines f))))
       = Normal info.

(** The keywords the [catch] blocks look for in a message. *)
Definition keywords : list string :=
  ["private"; "unavailable"; "cookies"; "authentication"; "format"].

(** Some formats and resolvers to run the handlers on. *)
Module Sample.

Definition mp4_360 : Format := mkFormat 18 "mp4" true true (Some 360) (Some "1000").
Definition mp4_720 : Format := mkFormat 22 "mp4" true true (Some 720) None.
Definition webm_144 : Format := mkFormat 43 "webm" true true (Some 144) None.
Definition video_only : Format := mkFormat 160 "mp4" true false (Some 144) None.
Definition audio_only : Format := mkFormat 140 "m4a" false true None (Some "500").

Definition get : Request := mkRequest "GET" (Some "https://youtu.be/x").

(** A resolver that accepts every URL and resolves to the given formats. *)
Definition resolving (fs : list Format) : Ytdl :=
  mkYtdl (fun _ => true) (fun _ _ => Normal (mkInfo fs "clip")).

(** A resolver that accepts every URL and rejects with the given message. *)
Definition rejecting (message : string) : Ytdl :=
  mkYtdl (fun _ => true) (fun _ _ => Throw message).

(** A message of 130 characters that mentions a format. *)
Definition longMessage : string :=
  "No such format found: " +:+ String.string_of_list_ascii (repeat "x"%char 108).

(** A line of a cookie file in the Netscape format, with the given domain,
    name and value. *)
Definition cookieLineOf (domain name value : string) : string :=
  domain +:+ String JS.tab ("TRUE" +:+ String JS.tab ("/" +:+ String JS.tab
    ("TRUE" +:+ String JS.tab ("0" +:+ String JS.tab (name +:+ String JS.tab value))))).


End Sample.

(* ===================================================================== *)
(** ** Notions for the properties of the rest of the handlers             *)
(* ===================================================================== *)

(** Every character of [s] satisfies [p]. *)
Fixpoint allChars (p : ascii -> bool) (s : string) : bool :=
  match s with
  | EmptyString => true
  | String c s' => p c && allChars p s'
  end.

(** A string of white space only. *)
Definition blank (s : string) : bool := allChars JS.isWhiteSpace s.

(** A string in which the character [ch] does not occur. *)
Definition charFree (ch : ascii) (s : string) : bool :=
  allChars (fun c => negb (Ascii.eqb c ch)) s.

(** A cookie as a line of a Netscape cookie file carries it. *)
Record Cookie : Type := mkCookie {
  c_domain : string;
  c_name : string;
  c_value : string
}.

(** The line and the file that carry the given cookies: seven fields
    separated by tabs, one line per cookie, lines separated by line feeds. *)
Definition renderLine (c : Cookie) : string :=
  Sample.cookieLineOf (c_domain c) (c_name c) (c_value c).

Definition renderFile (cs : list Cookie) : string :=
  JS.join (String JS.newline "") (map renderLine cs).

(** A field that can stand in such a line: no tab and no line feed in it. *)
Definition plainField (s : string) : bool :=
  charFree JS.tab s && charFree JS.newline s.

(** A cookie whose line is a cookie line as it stands: plain fields, a domain
    that is not empty and begins with neither white space nor [#] nor [//], a
    name, and a value that is not empty and does not end in white space. *)
Definition wellFormedCookie (c : Cookie) : bool :=
  plainField (c_domain c) && plainField (c_name c) && plainField (c_value c)
  && JS.truthy (c_domain c) && String.eqb (JS.trimStart (c_domain c)) (c_domain c)
  && negb (JS.startsWith (c_domain c) "#") && negb (JS.startsWith (c_domain c) "//")
  && JS.truthy (c_name c)
  && JS.truthy (c_value c) && String.eqb (JS.trimEnd (c_value c)) (c_value c).

Definition cookiePair (c : Cookie) : string := c_name c +:+ "=" +:+ c_value c.

(** The request does not pass the checks that come before the cookie file is
    read: it is no [GET], or has no [url], or one the resolver does not accept. *)
Definition rejectedEarly (ytdl : Ytdl) (req : Request) : bool :=
  negb (String.eqb (method req) "GET")
  || match query_url req with
     | None => true
     | Some url => negb (JS.truthy url) || negb (validateURL ytdl url)
     end.

(** The response is one JSON error: a client or server error status, a payload
    with an [error] field, sent and ended, and no byte of body. *)
Definition isErrorAnswer (r : Response) : Prop :=
  In (statusCode r) [400; 403; 405; 500]
  /\ (exists payload message, json r = Some payload /\ payload !! "error" = Some message)
  /\ headersSent r = true /\ ended r = true /\ body r = [].

(** The response is ready for the body: status 200, the download headers set,
    nothing sent yet. *)
Definition isReadyToStream (r : Response) : Prop :=
  statusCode r = 200 /\ json r = None /\ headersSent r = false /\ ended r = false
  /\ body r = []
  /\ headers r !! "Content-Type" = Some "video/mp4"
  /\ is_Some (headers r !! "Content-Disposition").

(** What holds of a connection at every moment after the handler returned: a
    payload and body bytes exclude each other, body bytes go with status 200
    and sent headers, and a flowing stream has sent no payload. *)
Definition relayInvariant (c : Conn) : Prop :=
  (json (res c) <> None -> body (res c) = [] /\ relayState c = Failed)
  /\ (body (res c) <> [] -> headersSent (res c) = true /\ statusCode (res c) = 200)
  /\ (relayState c <> Failed -> statusCode (res c) = 200).

(* ===================================================================== *)
(** ** Strings                                                            *)
(* ===================================================================== *)

Section StringFacts.
Import JS.

Lemma truthy_true (s : string) : truthy s = true <-> s <> "".
Proof. destruct s; simpl; split; intros; congruence. Qed.

Lemma truthy_false (s : string) : truthy s = false <-> s = "".
Proof. destruct s; simpl; split; intros; congruence. Qed.

Lemma append_cons (a : ascii) (p q : string) : String a p +:+ q = String a (p +:+ q).
Proof. reflexivity. Qed.

Lemma append_empty_l (q : string) : "" +:+ q = q.
Proof. reflexivity. Qed.

Lemma prefix_app (p s : string) :
  String.prefix p s = true <-> exists post, s = p +:+ post.
Proof.
  revert s. induction p as [|a p IH]; intros s.
  - split; [intros _; exists s; reflexivity | intros _; destruct s; reflexivity].
  - destruct s as [|b s]; simpl.
    + split; [discriminate | intros [post H]; discriminate].
    + destruct (ascii_dec a b) as [->|Hab].
      * rewrite IH. split; intros [post H]; exists post.
        -- rewrite append_cons. now rewrite H.
        -- rewrite append_cons in H. congruence.
      * split; [discriminate | intros [post H]; rewrite append_cons in H; congruence].
Qed.


Lemma length_substring0 (n : nat) (s : string) :
  (String.length (substring0 n s) <= n)%nat.
Proof.
  unfold substring0. revert s. induction n as [|n IH]; intros s.
  - destruct s; simpl; lia.
  - destruct s as [|c s]; simpl; [lia|]. specialize (IH s). lia.
Qed.

Lemma join_nil (sep : string) : join sep [] = "".
Proof. reflexivity. Qed.

End StringFacts.

(* ===================================================================== *)
(** ** Cookie files                                                       *)
(* ===================================================================== *)

Section CookieFacts.
Import JS.



(** The loop of [download.js] pushes, in the order of the lines, the token
    of every line that has one. *)
Lemma api_parseLines_omap (lines : list string) :
  Api.parseLines lines = omap Api.lineToken lines.
Proof.
  unfold Api.parseLines.
  enough (H : forall acc,
    fold_left (fun cookies line =>
                 match Api.lineToken line with
                 | Some token => cookies ++ [token]
                 | None => cookies
                 end) lines acc = acc ++ omap Api.lineToken lines) by apply (H []).
  induction lines as [|l lines IH]; intros acc; simpl.
  - now rewrite app_nil_r.
  - rewrite IH. destruct (Api.lineToken l); [|reflexivity].
    now rewrite <- app_assoc.
Qed.

Lemma part000_dropNull_map {A : Type} (f : A -> option string) (l : list A) :
  Part000.dropNull (map f l) = omap f l.
Proof.
  unfold Part000.dropNull. induction l as [|x l IH]; simpl; [reflexivity|].
  rewrite IH. now destruct (f x).
Qed.

Lemma part000_parseLines_omap (lines : list string) :
  Part000.parseLines lines = omap Part000.lineToken (List.filter Part000.keepLine lines).
Proof. apply part000_dropNull_map. Qed.

Lemma join_if_nonempty (cookies : list string) :
  (if (0 <? length cookies)%nat then Normal (join "; " cookies) else Normal "")
  = Normal (join "; " cookies) :> Completion string.
Proof. now destruct cookies. Qed.

(** Cookie loading always completes normally, with the tokens of the lines
    joined. *)
Lemma api_loadCookies_eq (f : CookieFile) :
  Api.loadCookies f = Normal (join "; " (Api.parseLines (cookieLines f))).
Proof.
  destruct f as [|e|text]; try reflexivity.
  unfold Api.loadCookies, Api.readCookies; simpl.
  now rewrite join_if_nonempty.
Qed.

Lemma part000_loadCookies_eq (f : CookieFile) :
  Part000.loadCookies f = Normal (join "; " (Part000.parseLines (cookieLines f))).
Proof.
  destruct f as [|e|text]; try reflexivity.
  unfold Part000.loadCookies, Part000.readCookies; simpl.
  now rewrite join_if_nonempty.
Qed.

Lemma api_lineToken_cookieLine (line : string) :
  apiCookieLine line = true ->
  Api.lineToken line = Some (tokenOf (split tab (trim line))).
Proof.
  unfold apiCookieLine, Api.lineToken, tokenOf.
  rewrite !andb_true_iff, !negb_true_iff.
  intros [[[[[Ht Hh] Hs] Hn] H5] H6].
  now rewrite Ht, Hh, Hs, Hn, H5, H6.
Qed.

Lemma part000_lineToken_cookieLine (line : string) :
  part000CookieLine line = true ->
  Part000.keepLine line = true /\
  Part000.lineToken line = Some (tokenOf (split tab line)).
Proof.
  unfold part000CookieLine, Part000.keepLine, Part000.lineToken, tokenOf.
  rewrite !andb_true_iff, !negb_true_iff.
  intros [[[[[Ht Hh] Hs] Hn] H5] H6].
  now rewrite Ht, Hh, Hs, Hn.
Qed.

Lemma omap_cons {A B : Type} (f : A -> option B) (x : A) (l : list A) :
  omap f (x :: l) = match f x with Some y => y :: omap f l | None => omap f l end.
Proof. reflexivity. Qed.

Lemma api_parse_cookieLines (lines : list string) :
  Forall (fun l => apiCookieLine l = true) lines ->
  Api.parseLines lines = map (fun l => tokenOf (split tab (trim l))) lines.
Proof.
  rewrite api_parseLines_omap.
  induction 1 as [|l lines Hl _ IH]; [reflexivity|].
  rewrite omap_cons, (api_lineToken_cookieLine l Hl), IH. reflexivity.
Qed.

Lemma part000_parse_cookieLines (lines : list string) :
  Forall (fun l => part000CookieLine l = true) lines ->
  Part000.parseLines lines = map (fun l => tokenOf (split tab l)) lines.
Proof.
  rewrite part000_parseLines_omap.
  induction 1 as [|l lines Hl _ IH]; [reflexivity|].
  destruct (part000_lineToken_cookieLine l Hl) as [Hk Ht].
  simpl List.filter. rewrite Hk, omap_cons, Ht, IH. reflexivity.
Qed.

Lemma api_lineToken_eq (line : string) :
  Api.lineToken line =
  if apiCookieLine line then Some (tokenOf (split tab (trim line))) else None.
Proof.
  unfold apiCookieLine, Api.lineToken, tokenOf.
  destruct (truthy (trim line)), (startsWith (trim line) "#"),
    (startsWith (trim line) "//"), (7 <=? length (split tab (trim line)))%nat,
    (truthy (at_ (split tab (trim line)) 5)),
    (truthy (at_ (split tab (trim line)) 6)); reflexivity.
Qed.

Lemma api_parseLines_filter (lines : list string) :
  Api.parseLines lines
  = map (fun l => tokenOf (split tab (trim l))) (List.filter apiCookieLine lines).
Proof.
  rewrite api_parseLines_omap.
  induction lines as [|l lines IH]; [reflexivity|].
  rewrite omap_cons, api_lineToken_eq, IH. simpl.
  now destruct (apiCookieLine l).
Qed.

Lemma filter_cons_eq {A : Type} (f : A -> bool) (x : A) (l : list A) :
  List.filter f (x :: l) = if f x then x :: List.filter f l else List.filter f l.
Proof. reflexivity. Qed.

Lemma part000_parseLines_filter (lines : list string) :
  Part000.parseLines lines
  = map (fun l => tokenOf (split tab l)) (List.filter part000TokenLine lines).
Proof.
  rewrite part000_parseLines_omap.
  induction lines as [|l lines IH]; [reflexivity|].
  rewrite !filter_cons_eq.
  replace (part000TokenLine l)
    with (Part000.keepLine l && (7 <=? length (split tab l))%nat) by reflexivity.
  destruct (Part000.keepLine l); cbn [andb]; [|exact IH].
  rewrite omap_cons, IH. unfold Part000.lineToken.
  now destruct (7 <=? length (split tab l))%nat.
Qed.

End CookieFacts.

Section CookieClaims.
Import JS.

(** C3, as amended.  In [src/api/download.js] the rule is the one of the
    specification, applied to every line of the text: a line yields a token
    exactly when, once trimmed, it is not empty, does not begin with [#] or
    [//], splits on tabs into seven fields or more, and fields 5 and 6 are
    both non-empty; the token is these two fields.  In
    [src/unnamed/part_000] a line yields a token exactly when its trimmed
    form is not empty, the line as it stands does not begin with [#] or [//]
    and splits on tabs into seven fields or more; the token is fields 5 and 6
    of the line as it stands, empty or not.  In both, the header is the
    tokens in the order of the lines. *)
Theorem cookie_parsing_rule (text : string) :
  Api.loadCookies (Content text)
  = Normal (join "; " (map (fun l => tokenOf (split tab (trim l)))
                           (List.filter apiCookieLine (split newline text))))
  /\ Part000.loadCookies (Content text)
     = Normal (join "; " (map (fun l => tokenOf (split tab l))
                              (List.filter part000TokenLine (split newline text)))).
Proof.
  split.
  - rewrite api_loadCookies_eq. simpl cookieLines. now rewrite api_parseLines_filter.
  - rewrite part000_loadCookies_eq. simpl cookieLines.
    now rewrite part000_parseLines_filter.
Qed.

(** C3 fails as stated on [src/unnamed/part_000]: a line of seven fields
    whose name, field 5, is empty still yields a token. *)
Lemma cookie_parsing_rule_counterexample :
  at_ (split tab (trim (Sample.cookieLineOf ".youtube.com" "" "v"))) 5 = ""
  /\ Part000.loadCookies (Content (Sample.cookieLineOf ".youtube.com" "" "v"))
     = Normal "=v".
Proof. split; vm_compute; reflexivity. Qed.

(** C4.  Whatever is found at the path of the cookie file, cookie loading
    completes normally in both handlers, and the header is the empty string
    when the file is absent, when it cannot be read and when its lines yield
    no token. *)
Theorem cookie_loading_never_raises (f : CookieFile) :
  exists hApi hPart000,
    Api.loadCookies f = Normal hApi
    /\ Part000.loadCookies f = Normal hPart000
    /\ (f = Absent \/ (exists err, f = Unreadable err)
        \/ Api.parseLines (cookieLines f) = [] -> hApi = "")
    /\ (f = Absent \/ (exists err, f = Unreadable err)
        \/ Part000.parseLines (cookieLines f) = [] -> hPart000 = "").
Proof.
  exists (join "; " (Api.parseLines (cookieLines f))),
         (join "; " (Part000.parseLines (cookieLines f))).
  split; [apply api_loadCookies_eq|].
  split; [apply part000_loadCookies_eq|].
  split; (intros [-> | [[err ->] | ->]]; reflexivity).
Qed.

Lemma cookie_loading_never_raises_witness :
  exists hApi hPart000,
    Api.loadCookies (Content "# Netscape HTTP Cookie File") = Normal hApi
    /\ Part000.loadCookies (Content "# Netscape HTTP Cookie File") = Normal hPart000
    /\ hApi = "" /\ hPart000 = "".
Proof.
  destruct (cookie_loading_never_raises (Content "# Netscape HTTP Cookie File"))
    as (hApi & hPart000 & HA & HP & HA0 & HP0).
  exists hApi, hPart000.
  split; [exact HA|]. split; [exact HP|].
  split; [apply HA0 | apply HP0]; right; right; reflexivity.
Defined.




End CookieClaims.

(* ===================================================================== *)
(** ** Variant selection                                                  *)
(* ===================================================================== *)

Section SelectionFacts.

Lemma filter_none {A : Type} (p : A -> bool) (l : list A) :
  (forall g, In g l -> p g = false) -> List.filter p l = [].
Proof.
  induction l as [|x l IH]; intros H; [reflexivity|].
  rewrite filter_cons_eq, (H x (or_introl eq_refl)).
  apply IH. intros g Hg. apply H. now right.
Qed.

Lemma filter_some {A : Type} (p : A -> bool) (l : list A) (g : A) :
  In g l -> p g = true -> exists f rest, List.filter p l = f :: rest.
Proof.
  intros Hin Hp.
  destruct (List.filter p l) as [|f rest] eqn:E; [|eauto].
  assert (Hg : In g (List.filter p l)) by (apply List.filter_In; auto).
  rewrite E in Hg. destruct Hg.
Qed.

(** An element of a filtered list splits the list it was filtered from. *)
Lemma filter_split {A : Type} (p : A -> bool) (l a b : list A) (f : A) :
  List.filter p l = a ++ f :: b ->
  exists l1 l2, l = l1 ++ f :: l2 /\ List.filter p l1 = a /\ List.filter p l2 = b.
Proof.
  revert a. induction l as [|x l IH]; intros a H.
  - destruct a; discriminate.
  - rewrite filter_cons_eq in H. destruct (p x) eqn:Hx.
    + destruct a as [|y a].
      * injection H as Hxf Hb. subst f. exists [], l. auto.
      * injection H as Hxy Ha. subst y.
        destruct (IH a Ha) as (l1 & l2 & -> & H1 & H2).
        exists (x :: l1), l2. rewrite filter_cons_eq, Hx, H1. auto.
    + destruct (IH a H) as (l1 & l2 & -> & H1 & H2).
      exists (x :: l1), l2. rewrite filter_cons_eq, Hx. auto.
Qed.

(** The head of the sorted array is the first-encountered element of minimum
    key. *)
Lemma sort_head {A : Type} (compare : A -> A -> Z) (key : A -> Z) (l : list A) :
  (forall a b, compare a b = key a - key b) ->
  l <> [] ->
  exists f rest l1 l2,
    Part000.sort compare l = f :: rest /\ l = l1 ++ f :: l2
    /\ (forall g, In g l1 -> key f < key g)
    /\ (forall g, In g l2 -> key f <= key g).
Proof.
  intros Hcmp. induction l as [|x l IH]; intros Hne; [congruence|].
  destruct l as [|y l].
  - exists x, [], [], []. simpl. repeat split; intros g [].
  - destruct IH as (f & rest & l1 & l2 & Hs & Hl & H1 & H2); [discriminate|].
    change (Part000.sort compare (x :: y :: l))
      with (Part000.insertSorted compare x (Part000.sort compare (y :: l))).
    rewrite Hs, Hl. simpl Part000.insertSorted. rewrite Hcmp.
    destruct (key x - key f <=? 0) eqn:E.
    + apply Z.leb_le in E. exists x, (f :: rest), [], (l1 ++ f :: l2).
      repeat split; [intros g [] |].
      intros g Hg. apply in_app_or in Hg. destruct Hg as [Hg | [<- | Hg]].
      * specialize (H1 g Hg). lia.
      * lia.
      * specialize (H2 g Hg). lia.
    + apply Z.leb_gt in E.
      exists f, (Part000.insertSorted compare x rest), (x :: l1), l2.
      repeat split; [| exact H2].
      intros g [<- | Hg]; [lia | now apply H1].
Qed.

Lemma part000_insertSorted_length {A : Type} (compare : A -> A -> Z) (x : A)
    (l : list A) :
  length (Part000.insertSorted compare x l) = S (length l).
Proof.
  induction l as [|y l IH]; [reflexivity|].
  simpl. destruct (compare x y <=? 0); simpl; [reflexivity | now rewrite IH].
Qed.

Lemma part000_sort_length {A : Type} (compare : A -> A -> Z) (l : list A) :
  length (Part000.sort compare l) = length l.
Proof.
  induction l as [|x l IH]; [reflexivity|].
  simpl. now rewrite part000_insertSorted_length, IH.
Qed.

(** The selector of [part_000] on an array with a combined mp4 format. *)
Lemma part000_select_firstMin (fs : list Format) (g : Format) :
  In g fs -> Part000.isMp4VideoAndAudio g = true ->
  exists f, Part000.selectFormat fs = Some f
    /\ firstMinAmong Part000.isMp4VideoAndAudio Part000.getHeight f fs.
Proof.
  intros Hin Hg. unfold Part000.selectFormat.
  destruct (filter_some _ _ _ Hin Hg) as (x & xs & E). rewrite E.
  destruct (sort_head Part000.compareHeight Part000.getHeight (x :: xs))
    as (f & rest & a & b & Hs & Hl & H1 & H2); [reflexivity | discriminate |].
  rewrite Hs. exists f. split; [reflexivity|].
  rewrite <- E in Hl. destruct (filter_split _ _ _ _ _ Hl) as (l1 & l2 & -> & Ha & Hb).
  split.
  - assert (Hf : In f (List.filter Part000.isMp4VideoAndAudio (l1 ++ f :: l2))).
    { rewrite Hl. apply in_or_app. right. now left. }
    apply List.filter_In in Hf. tauto.
  - exists l1, l2. split; [reflexivity|]. split; intros h Hh Hp.
    + apply H1. rewrite <- Ha. apply List.filter_In. auto.
    + apply H2. rewrite <- Hb. apply List.filter_In. auto.
Qed.

Lemma part000_select_none (fs : list Format) :
  (forall g, In g fs -> Part000.isMp4VideoAndAudio g = false) ->
  Part000.selectFormat fs = None.
Proof. intros H. unfold Part000.selectFormat. now rewrite (filter_none _ _ H). Qed.

Lemma firstMinAmong_In {A : Type} (p : A -> bool) (key : A -> Z) (f : A) (l : list A) :
  firstMinAmong p key f l -> In f l /\ forall g, In g l -> p g = true -> key f <= key g.
Proof.
  intros (Hp & l1 & l2 & -> & H1 & H2). split.
  - apply in_or_app. right. now left.
  - intros g Hg Hpg. apply in_app_or in Hg. destruct Hg as [Hg | [<- | Hg]].
    + specialize (H1 g Hg Hpg). lia.
    + lia.
    + now apply H2.
Qed.

(** The selector of [download.js], tier by tier. *)
Lemma api_select_combined (fs : list Format) (g : Format) :
  In g fs -> combined g = true ->
  exists f, Api.selectFormat fs = Some f /\ In f fs /\ combined f = true.
Proof.
  intros Hin Hg. unfold Api.selectFormat, filterFormats_videoandaudio.
  destruct (filter_some combined fs g Hin Hg) as (f & rest & E).
  change (fun format => hasVideo format && hasAudio format) with combined.
  rewrite E. exists f. split; [reflexivity|].
  apply (List.filter_In combined). rewrite E. now left.
Qed.

Lemma api_select_video_only (l1 l2 : list Format) (v : Format) :
  (forall g, In g (l1 ++ v :: l2) -> combined g = false) ->
  hasVideo v = true ->
  (forall g, In g l1 -> hasVideo g = false) ->
  Api.selectFormat (l1 ++ v :: l2) = Some v.
Proof.
  intros Hnone Hv Hl1. unfold Api.selectFormat, filterFormats_videoandaudio.
  change (fun format => hasVideo format && hasAudio format) with combined.
  rewrite (filter_none combined _ Hnone), List.filter_app, (filter_none (fun format => hasVideo format) l1 Hl1).
  rewrite filter_cons_eq, Hv. reflexivity.
Qed.

Lemma api_select_none (fs : list Format) :
  (forall g, In g fs -> hasVideo g = false) -> Api.selectFormat fs = None.
Proof.
  intros H. unfold Api.selectFormat, filterFormats_videoandaudio.
  rewrite (filter_none (fun format => hasVideo format && hasAudio format) fs).
  - now rewrite (filter_none (fun format => hasVideo format) fs H).
  - intros g Hg. now rewrite (H g Hg).
Qed.

End SelectionFacts.

(* ===================================================================== *)
(** ** The handlers up to the selection                                   *)
(* ===================================================================== *)

Section HandlerFacts.
Import JS.

Lemma bind_Normal {A B : Type} (a : A) (k : A -> Completion B) :
  (Normal a ≫= k) = k a.
Proof. reflexivity. Qed.

Lemma bind_Throw {A B : Type} (message : string) (k : A -> Completion B) :
  (Throw message ≫= k) = Throw message.
Proof. reflexivity. Qed.

Lemma bind_Done {A B : Type} (a : A) (k : A -> Attempt B) : (Done a ≫= k) = k a.
Proof. reflexivity. Qed.

Lemma bind_Raised {A B : Type} (message : string) (r : Response) (k : A -> Attempt B) :
  (Raised message r ≫= k) = Raised message r.
Proof. reflexivity. Qed.

Lemma validHeaderValue_app (a b : string) :
  Res.validHeaderValue (a +:+ b) = Res.validHeaderValue a && Res.validHeaderValue b.
Proof.
  induction a as [|c a IH]; [reflexivity|].
  rewrite append_cons. simpl. now rewrite IH, andb_assoc.
Qed.

Lemma trySetHeader_valid (name value : string) (r : Response) :
  Res.validHeaderValue value = true ->
  Res.trySetHeader name value r = Done (Res.setHeader name value r).
Proof. intros H. unfold Res.trySetHeader. now rewrite H. Qed.

(** A [setHeader] that throws leaves the response as it was. *)
Lemma trySetHeader_cases (name value : string) (r : Response) :
  Res.trySetHeader name value r = Done (Res.setHeader name value r)
  \/ exists message, Res.trySetHeader name value r = Raised message r.
Proof. unfold Res.trySetHeader. destruct (Res.validHeaderValue value); eauto. Qed.

Lemma disposition_valid (name : string) :
  Res.validHeaderValue name = true ->
  Res.validHeaderValue
    ("attachment; filename=" +:+ String dquote (name +:+ ".mp4" +:+ String dquote ""))
  = true.
Proof.
  intros H. rewrite validHeaderValue_app.
  change (Res.validHeaderValue (String dquote (name +:+ ".mp4" +:+ String dquote "")))
    with (Res.validHeaderChar dquote
          && Res.validHeaderValue (name +:+ ".mp4" +:+ String dquote "")).
  now rewrite !validHeaderValue_app, H.
Qed.

(** The file name of [part_000] can always stand in a header. *)
Lemma part000_safeFilename_valid (title : string) :
  Res.validHeaderValue (Part000.safeFilename title) = true.
Proof.
  unfold Part000.safeFilename, orElse, substring0.
  assert (H : forall n s,
            Res.validHeaderValue
              (String.substring 0 n
                 (replaceClass (fun c => negb (Part000.alnum c)) "_" s)) = true).
  { induction n as [|n IH]; intros s; [now destruct s|].
    destruct s as [|c s]; [reflexivity|]. simpl. rewrite IH, andb_true_r.
    destruct (Part000.alnum c) eqn:E; [|reflexivity]. simpl.
    unfold Part000.alnum in E. unfold Res.validHeaderChar.
    destruct (N_of_ascii c) as [|p]; [discriminate|].
    apply orb_true_iff in E as [E | E]; [apply orb_true_iff in E as [E | E]|];
      apply andb_true_iff in E as [E1 E2];
      apply N.leb_le in E1; apply N.leb_le in E2;
      apply orb_true_iff; left; apply orb_true_iff; right;
      apply andb_true_iff; split; apply N.leb_le; lia. }
  destruct (truthy _) eqn:E; [apply H | reflexivity].
Qed.

(** The file name of [download.js] can stand in a header where the title
    can; a control character of the title that is no white space stays in the
    file name, and [setHeader] then throws. *)
Lemma api_safeFilename_valid (title : string) :
  Res.validHeaderValue title = true ->
  Res.validHeaderValue (Api.safeFilename title) = true.
Proof.
  intros Ht. unfold Api.safeFilename, orElse, substring0.
  assert (H1 : forall s, Res.validHeaderValue s = true ->
                 Res.validHeaderValue (replaceClass Api.unsafeChar "_" s) = true).
  { induction s as [|c s IH]; [reflexivity|]. simpl. intros H.
    apply andb_true_iff in H as [Hc Hs]. rewrite (IH Hs), andb_true_r.
    now destruct (Api.unsafeChar c). }
  assert (H2 : forall s b, Res.validHeaderValue s = true ->
                 Res.validHeaderValue (replaceRuns b "_" s) = true).
  { induction s as [|c s IH]; intros b H; [reflexivity|]. simpl in *.
    apply andb_true_iff in H as [Hc Hs].
    destruct (isWhiteSpace c); [destruct b|]; simpl; rewrite ?Hc, IH; auto. }
  assert (H3 : forall n s, Res.validHeaderValue s = true ->
                 Res.validHeaderValue (String.substring 0 n s) = true).
  { induction n as [|n IH]; intros s H; [now destruct s|].
    destruct s as [|c s]; [reflexivity|]. simpl in *.
    apply andb_true_iff in H as [Hc Hs]. now rewrite Hc, IH. }
  destruct (truthy _); [|reflexivity]. auto.
Qed.

(** The headers of [download.js]: set as [apiDownloadHeaders] says when no
    [setHeader] throws; a throw leaves status, payload and body untouched. *)
Lemma api_setDownloadHeaders_cases (title : string) (f : Format) (r : Response) :
  Api.setDownloadHeaders title f r = Done (apiDownloadHeaders title f r)
  \/ exists message r', Api.setDownloadHeaders title f r = Raised message r'
       /\ statusCode r' = statusCode r /\ json r' = json r /\ body r' = body r
       /\ headersSent r' = headersSent r /\ ended r' = ended r.
Proof.
  unfold Api.setDownloadHeaders, apiDownloadHeaders.
  destruct (trySetHeader_cases "Content-Type" "video/mp4" r) as [-> | [m ->]];
    [rewrite bind_Done | right; exists m, r; rewrite bind_Raised; now repeat split].
  match goal with
  | |- context [Res.trySetHeader "Content-Disposition" ?v ?r1] =>
      destruct (trySetHeader_cases "Content-Disposition" v r1) as [-> | [m ->]]
  end; [rewrite bind_Done | right; eexists m, _; rewrite bind_Raised; now repeat split].
  destruct (contentLength f) as [len|]; [|now left].
  destruct (truthy len); [|now left].
  match goal with
  | |- context [Res.trySetHeader "Content-Length" len ?r2] =>
      destruct (trySetHeader_cases "Content-Length" len r2) as [-> | [m ->]]
  end; [now left | right; eexists m, _; now repeat split].
Qed.

Lemma part000_setDownloadHeaders_cases (title : string) (f : Format) (r : Response) :
  Part000.setDownloadHeaders title f r = Done (part000DownloadHeaders title f r)
  \/ exists message r', Part000.setDownloadHeaders title f r = Raised message r'
       /\ statusCode r' = statusCode r /\ json r' = json r /\ body r' = body r
       /\ headersSent r' = headersSent r /\ ended r' = ended r.
Proof.
  unfold Part000.setDownloadHeaders, part000DownloadHeaders.
  destruct (trySetHeader_cases "Content-Type" "video/mp4" r) as [-> | [m ->]];
    [rewrite bind_Done | right; exists m, r; rewrite bind_Raised; now repeat split].
  match goal with
  | |- context [Res.trySetHeader "Content-Disposition" ?v ?r1] =>
      destruct (trySetHeader_cases "Content-Disposition" v r1) as [-> | [m ->]]
  end; [rewrite bind_Done | right; eexists m, _; rewrite bind_Raised; now repeat split].
  match goal with
  | |- context [Res.trySetHeader "Content-Length" ?v ?r2] =>
      destruct (trySetHeader_cases "Content-Length" v r2) as [-> | [m ->]]
  end; [now left | right; eexists m, _; now repeat split].
Qed.

Lemma forallb_In {A : Type} (p : A -> bool) (l : list A) (x : A) :
  forallb p l = true -> In x l -> p x = true.
Proof. intros H Hin. exact (proj1 (forallb_forall p l) H x Hin). Qed.

Lemma api_setDownloadHeaders_accepted (title : string) (f : Format) (r : Response) :
  Res.validHeaderValue (Api.safeFilename title) = true -> lengthAccepted f = true ->
  Api.setDownloadHeaders title f r = Done (apiDownloadHeaders title f r).
Proof.
  intros Ht Hl. unfold Api.setDownloadHeaders, apiDownloadHeaders.
  rewrite (trySetHeader_valid "Content-Type" "video/mp4" r eq_refl), bind_Done.
  rewrite (trySetHeader_valid "Content-Disposition" _ _ (disposition_valid _ Ht)), bind_Done.
  unfold lengthAccepted in Hl. destruct (contentLength f) as [len|]; [|reflexivity].
  destruct (truthy len); [|reflexivity]. now apply trySetHeader_valid.
Qed.

Lemma part000_setDownloadHeaders_accepted (title : string) (f : Format) (r : Response) :
  lengthAccepted f = true ->
  Part000.setDownloadHeaders title f r = Done (part000DownloadHeaders title f r).
Proof.
  intros Hl. unfold Part000.setDownloadHeaders, part000DownloadHeaders.
  rewrite (trySetHeader_valid "Content-Type" "video/mp4" r eq_refl), bind_Done.
  rewrite (trySetHeader_valid "Content-Disposition" _ _
             (disposition_valid _ (part000_safeFilename_valid title))), bind_Done.
  apply trySetHeader_valid. unfold lengthAccepted in Hl.
  destruct (contentLength f) as [len|]; [|reflexivity].
  unfold orElse. now destruct (truthy len).
Qed.

(** A request that resolves reaches the selection, in [download.js] ... *)
Lemma api_handler_resolved (ytdl : Ytdl) (f : CookieFile) (req : Request) (info : Info) :
  apiResolves ytdl f req info ->
  Api.handler ytdl f req =
  match Api.selectFormat (formats info) with
  | None =>
      {| res := Res.statusJson 400
                  {["error" := "No downloadable format available for this video"]}
                  Res.fresh;
         videoStream := None; reqClosed := true |}
  | Some selectedFormat =>
      match Api.setDownloadHeaders (title info) selectedFormat Res.fresh with
      | Done r =>
          {| res := r;
             videoStream :=
               Some {| vs_format := selectedFormat;
                       vs_options :=
                         Api.requestOptions (join "; " (Api.parseLines (cookieLines f)));
                       vs_state := Flowing |};
             reqClosed := true |}
      | Raised message r =>
          {| res := Api.catchError message r; videoStream := None; reqClosed := true |}
      end
  end.
Proof.
  intros (Hm & url & Hq & Hu & Hv & Hi).
  unfold Api.handler, Api.tryBlock. rewrite Hm, Hq, Hu, Hv.
  cbn [String.eqb Ascii.eqb Bool.eqb negb].
  rewrite api_loadCookies_eq. cbn [attempt]. rewrite bind_Done, Hi.
  cbn [attempt]. rewrite bind_Done.
  destruct (Api.selectFormat (formats info)); [|reflexivity].
  now destruct (Api.setDownloadHeaders _ _ _).
Qed.

(** ... and in [part_000]. *)
Lemma part000_handler_resolved (ytdl : Ytdl) (f : CookieFile) (req : Request)
    (info : Info) :
  part000Resolves ytdl f req info ->
  Part000.handler ytdl f req =
  match Part000.selectFormat (formats info) with
  | None =>
      {| res := Res.statusJson 400
                  {["error" := "No MP4 format available for this video"]} Res.fresh;
         videoStream := None; reqClosed := false |}
  | Some selectedFormat =>
      match Part000.setDownloadHeaders (title info) selectedFormat Res.fresh with
      | Done r =>
          {| res := r;
             videoStream :=
               Some {| vs_format := selectedFormat;
                       vs_options :=
                         Part000.requestOptions
                           (join "; " (Part000.parseLines (cookieLines f)));
                       vs_state := Flowing |};
             reqClosed := false |}
      | Raised message r =>
          {| res := Part000.catchError message r; videoStream := None;
             reqClosed := false |}
      end
  end.
Proof.
  intros (Hm & url & Hq & Hu & Hv & Hi).
  unfold Part000.handler, Part000.tryBlock. rewrite Hm, Hq, Hu, Hv.
  cbn [String.eqb Ascii.eqb Bool.eqb negb].
  rewrite part000_loadCookies_eq. cbn [attempt]. rewrite bind_Done, Hi.
  cbn [attempt]. rewrite bind_Done.
  destruct (Part000.selectFormat (formats info)); [|reflexivity].
  now destruct (Part000.setDownloadHeaders _ _ _).
Qed.

(** An error thrown in the [try] block reaches the [catch] block, which works
    on the response as it is then. *)
Lemma api_handler_caught (ytdl : Ytdl) (f : CookieFile) (req : Request)
    (message : string) (r : Response) :
  method req = "GET" ->
  Api.tryBlock ytdl f req Res.fresh = Raised message r ->
  res (Api.handler ytdl f req) = Api.catchError message r
  /\ videoStream (Api.handler ytdl f req) = None.
Proof. intros Hm Ht. unfold Api.handler. now rewrite Hm, Ht. Qed.

Lemma part000_handler_caught (ytdl : Ytdl) (f : CookieFile) (req : Request)
    (message : string) (r : Response) :
  method req = "GET" ->
  Part000.tryBlock ytdl f req Res.fresh = Raised message r ->
  res (Part000.handler ytdl f req) = Part000.catchError message r
  /\ videoStream (Part000.handler ytdl f req) = None.
Proof. intros Hm Ht. unfold Part000.handler. now rewrite Hm, Ht. Qed.

(** A title with a control character: [setHeader] throws on the disposition,
    the [catch] block answers 500 on the response that already has its content
    type, and no stream is opened. *)
Lemma api_control_character_in_title :
  let ytdl := mkYtdl (fun _ => true)
                (fun _ _ => Normal (mkInfo [Sample.mp4_360] (String "001" "clip"))) in
  let c := Api.handler ytdl Absent Sample.get in
  videoStream c = None /\ statusCode (res c) = 500
  /\ headers (res c) !! "Content-Type" = Some "video/mp4"
  /\ headers (res c) !! "Content-Disposition" = None.
Proof. repeat split. Qed.

Lemma apiResolves_sample (fs : list Format) :
  apiResolves (Sample.resolving fs) Absent Sample.get (mkInfo fs "clip").
Proof. split; [reflexivity|]. eexists. repeat split. Qed.

Lemma part000Resolves_sample (fs : list Format) :
  part000Resolves (Sample.resolving fs) Absent Sample.get (mkInfo fs "clip").
Proof. split; [reflexivity|]. eexists. repeat split. Qed.

End HandlerFacts.

Section SelectionClaims.

Lemma api_handler_streams_selected (ytdl : Ytdl) (file : CookieFile) (req : Request)
    (info : Info) :
  apiResolves ytdl file req info -> apiHeadersAccepted info = true ->
  streamedFormat (Api.handler ytdl file req) = Api.selectFormat (formats info).
Proof.
  intros Hres Hacc. rewrite (api_handler_resolved _ _ _ _ Hres).
  destruct (Api.selectFormat (formats info)) as [f|] eqn:E; [|reflexivity].
  apply andb_true_iff in Hacc as [Ht Hl].
  assert (Hin : In f (formats info)).
  { unfold Api.selectFormat, filterFormats_videoandaudio in E.
    destruct (List.filter (fun format => hasVideo format && hasAudio format)
                (formats info)) as [|x xs] eqn:E1.
    - destruct (List.filter (fun format => hasVideo format) (formats info))
        as [|y ys] eqn:E2; [discriminate|].
      injection E as <-.
      assert (H : In y (List.filter (fun format => hasVideo format) (formats info)))
        by (rewrite E2; now left).
      now apply List.filter_In in H.
    - injection E as <-.
      assert (H : In x (List.filter (fun format => hasVideo format && hasAudio format)
                          (formats info))) by (rewrite E1; now left).
      now apply List.filter_In in H. }
  now rewrite (api_setDownloadHeaders_accepted _ _ _ Ht (forallb_In _ _ _ Hl Hin)).
Qed.

Lemma part000_handler_streams_selected (ytdl : Ytdl) (file : CookieFile)
    (req : Request) (info : Info) :
  part000Resolves ytdl file req info -> part000HeadersAccepted info = true ->
  streamedFormat (Part000.handler ytdl file req) = Part000.selectFormat (formats info).
Proof.
  intros Hres Hacc. rewrite (part000_handler_resolved _ _ _ _ Hres).
  destruct (Part000.selectFormat (formats info)) as [f|] eqn:E; [|reflexivity].
  assert (Hin : In f (formats info)).
  { destruct (List.filter Part000.isMp4VideoAndAudio (formats info)) as [|x xs] eqn:E1.
    - unfold Part000.selectFormat in E. rewrite E1 in E. discriminate.
    - assert (Hx : In x (List.filter Part000.isMp4VideoAndAudio (formats info)))
        by (rewrite E1; now left).
      apply List.filter_In in Hx as [Hx Hp].
      destruct (part000_select_firstMin _ x Hx Hp) as (g & Hg & Hmin).
      rewrite E in Hg. injection Hg as <-. now apply firstMinAmong_In in Hmin. }
  now rewrite (part000_setDownloadHeaders_accepted _ _ _ (forallb_In _ _ _ Hacc Hin)).
Qed.

(** C1, as amended.  In [src/api/download.js] the selection has two tiers:
    where some variant has both a video and an audio component, the variant
    selected is one of these; where none has both but some variant has a
    video component, it is the first variant with a video component; where
    no variant has a video component none is selected and the handler answers
    400.  In [src/unnamed/part_000] there is one tier: where some variant in
    the mp4 container has both components, the variant selected is one of
    these, and otherwise none is selected and the handler answers 400,
    whatever video-only variants there are.  In both, the variant selected is
    the one streamed where [setHeader] accepts the download headers. *)
Theorem variant_selection_tiers (ytdl : Ytdl) (file : CookieFile) (req : Request)
    (info : Info) :
  (((exists g, In g (formats info) /\ combined g = true) ->
      exists f, Api.selectFormat (formats info) = Some f /\ In f (formats info)
                /\ combined f = true)
   /\ (forall l1 v l2,
         formats info = l1 ++ v :: l2 ->
         (forall g, In g (formats info) -> combined g = false) ->
         hasVideo v = true -> (forall g, In g l1 -> hasVideo g = false) ->
         Api.selectFormat (formats info) = Some v)
   /\ ((forall g, In g (formats info) -> hasVideo g = false) ->
         Api.selectFormat (formats info) = None)
   /\ (apiResolves ytdl file req info ->
         let c := Api.handler ytdl file req in
         (Api.selectFormat (formats info) = None ->
            streamedFormat c = None /\ statusCode (res c) = 400
            /\ json (res c)
               = Some {["error" := "No downloadable format available for this video"]})
         /\ (apiHeadersAccepted info = true ->
               streamedFormat c = Api.selectFormat (formats info))))
  /\ (((exists g, In g (formats info) /\ Part000.isMp4VideoAndAudio g = true) ->
        exists f, Part000.selectFormat (formats info) = Some f /\ In f (formats info)
                  /\ Part000.isMp4VideoAndAudio f = true)
      /\ ((forall g, In g (formats info) -> Part000.isMp4VideoAndAudio g = false) ->
            Part000.selectFormat (formats info) = None)
      /\ (part000Resolves ytdl file req info ->
            let c := Part000.handler ytdl file req in
            (Part000.selectFormat (formats info) = None ->
               streamedFormat c = None /\ statusCode (res c) = 400
               /\ json (res c)
                  = Some {["error" := "No MP4 format available for this video"]})
            /\ (part000HeadersAccepted info = true ->
                  streamedFormat c = Part000.selectFormat (formats info)))).
Proof.
  split.
  - split; [|split; [|split]].
    + intros (g & Hin & Hg). now apply (api_select_combined _ g).
    + intros l1 v l2 Hl Hnone Hv Hl1. rewrite Hl in *.
      now apply api_select_video_only.
    + apply api_select_none.
    + intros Hres c. subst c. split.
      * intros Hnone. rewrite (api_handler_resolved _ _ _ _ Hres), Hnone.
        now repeat split.
      * now apply api_handler_streams_selected.
  - split; [|split].
    + intros (g & Hin & Hg).
      destruct (part000_select_firstMin _ g Hin Hg) as (f & Hf & Hmin).
      exists f. split; [exact Hf|]. split; [|apply Hmin].
      now apply firstMinAmong_In in Hmin.
    + apply part000_select_none.
    + intros Hres c. subst c. split.
      * intros Hnone. rewrite (part000_handler_resolved _ _ _ _ Hres), Hnone.
        now repeat split.
      * now apply part000_handler_streams_selected.
Qed.

Lemma variant_selection_tiers_witness :
  streamedFormat
    (Api.handler (Sample.resolving [Sample.audio_only; Sample.video_only]) Absent Sample.get)
  = Some Sample.video_only
  /\ statusCode
       (res (Part000.handler (Sample.resolving [Sample.audio_only; Sample.video_only])
               Absent Sample.get))
     = 400.
Proof.
  destruct (variant_selection_tiers
              (Sample.resolving [Sample.audio_only; Sample.video_only]) Absent Sample.get
              (mkInfo [Sample.audio_only; Sample.video_only] "clip"))
    as [(_ & HA2 & _ & HA) (_ & HP2 & HP)].
  split.
  - assert (Hres : apiResolves
              (Sample.resolving [Sample.audio_only; Sample.video_only]) Absent Sample.get
              (mkInfo [Sample.audio_only; Sample.video_only] "clip")).
    { split; [reflexivity|]. eexists. repeat split. }
    destruct (HA Hres) as [_ Hs]. rewrite (Hs eq_refl).
    apply (HA2 [Sample.audio_only] Sample.video_only []).
    + reflexivity.
    + intros g [<- | [<- | []]]; reflexivity.
    + reflexivity.
    + intros g [<- | []]; reflexivity.
  - assert (Hres : part000Resolves
              (Sample.resolving [Sample.audio_only; Sample.video_only]) Absent Sample.get
              (mkInfo [Sample.audio_only; Sample.video_only] "clip")).
    { split; [reflexivity|]. eexists. repeat split. }
    destruct (HP Hres) as [Hn _]. apply Hn. apply HP2.
    intros g [<- | [<- | []]]; reflexivity.
Defined.

(** C1 fails as stated on [src/unnamed/part_000]: with no combined variant
    and one variant with a video component, the handler answers 400 and
    streams nothing. *)
Lemma variant_selection_tiers_counterexample :
  let fs := [Sample.audio_only; Sample.video_only] in
  List.filter combined fs = []
  /\ List.filter (fun format => hasVideo format) fs = [Sample.video_only]
  /\ streamedFormat (Part000.handler (Sample.resolving fs) Absent Sample.get) = None
  /\ statusCode (res (Part000.handler (Sample.resolving fs) Absent Sample.get)) = 400.
Proof. repeat split. Qed.

(** C2, as amended.  For every variant set with at least one variant in the
    mp4 container that has both a video and an audio component, the selector
    of [src/unnamed/part_000] returns, among these variants, the one of
    minimum height, an absent height counting as 0, and among those of
    minimum height the first-encountered one. *)
Theorem lowest_combined_variant (fs : list Format) :
  (exists g, In g fs /\ Part000.isMp4VideoAndAudio g = true) ->
  exists f, Part000.selectFormat fs = Some f
    /\ firstMinAmong Part000.isMp4VideoAndAudio Part000.getHeight f fs
    /\ In f fs /\ combined f = true
    /\ (forall g, In g fs -> Part000.isMp4VideoAndAudio g = true ->
          Part000.getHeight f <= Part000.getHeight g).
Proof.
  intros (g & Hin & Hg).
  destruct (part000_select_firstMin fs g Hin Hg) as (f & Hsel & Hmin).
  exists f. split; [exact Hsel|]. split; [exact Hmin|].
  destruct (firstMinAmong_In _ _ _ _ Hmin) as [Hf Hle].
  split; [exact Hf|]. split; [|exact Hle].
  destruct Hmin as [Hp _]. unfold Part000.isMp4VideoAndAudio in Hp.
  unfold combined. apply andb_true_iff in Hp. destruct Hp as [Hp Ha].
  apply andb_true_iff in Hp. destruct Hp as [_ Hv]. now rewrite Hv, Ha.
Qed.

Lemma lowest_combined_variant_witness :
  exists f,
    Part000.selectFormat
      [Sample.mp4_720; Sample.webm_144; Sample.mp4_360; Sample.video_only] = Some f
    /\ In f [Sample.mp4_720; Sample.webm_144; Sample.mp4_360; Sample.video_only]
    /\ Part000.getHeight f <= Part000.getHeight Sample.mp4_720.
Proof.
  destruct (lowest_combined_variant
              [Sample.mp4_720; Sample.webm_144; Sample.mp4_360; Sample.video_only])
    as (f & Hsel & _ & Hin & _ & Hle).
  - exists Sample.mp4_720. split; [left; reflexivity | reflexivity].
  - exists f. split; [exact Hsel|]. split; [exact Hin|].
    apply Hle; [left; reflexivity | reflexivity].
Defined.

(** C2 fails as stated.  In [src/unnamed/part_000] a combined variant outside
    the mp4 container is passed over, though its height is the minimum; in
    [src/api/download.js] the first combined variant is taken, though a later
    one is lower. *)
Lemma lowest_combined_variant_counterexample :
  combined Sample.webm_144 = true
  /\ Part000.getHeight Sample.webm_144 < Part000.getHeight Sample.mp4_360
  /\ Part000.selectFormat [Sample.webm_144; Sample.mp4_360] = Some Sample.mp4_360
  /\ combined Sample.mp4_360 = true
  /\ Api.selectFormat [Sample.mp4_720; Sample.mp4_360] = Some Sample.mp4_720.
Proof. repeat split. Qed.

End SelectionClaims.

(* ===================================================================== *)
(** ** Error responses                                                    *)
(* ===================================================================== *)

Section ErrorFacts.
Import JS.

(** The payload of the generic 500 of [download.js] carries at most 100
    characters of the message. *)
Lemma api_fallback_details_capped (message : string) (r : Response) :
  Forall (fun kw => includes message kw = false) keywords ->
  statusCode (Api.catchError message r) = 500
  /\ exists payload details,
       json (Api.catchError message r) = Some payload
       /\ payload !! "details" = Some details
       /\ (String.length details <= 100)%nat.
Proof.
  intros H. unfold keywords in H.
  apply Forall_cons_iff in H as [H1 H]. apply Forall_cons_iff in H as [H2 H].
  apply Forall_cons_iff in H as [H3 H]. apply Forall_cons_iff in H as [H4 H].
  apply Forall_cons_iff in H as [H5 _].
  unfold Api.catchError. rewrite H1, H2, H3, H4, H5. cbn [orb].
  split; [reflexivity|]. eexists _, (substring0 100 message).
  split; [reflexivity|]. split; [apply lookup_insert_eq | apply length_substring0].
Qed.

Lemma api_catchError_status (message : string) (r : Response) :
  statusCode (Api.catchError message r)
  = if includes message "private" || includes message "unavailable" then 403
    else if includes message "cookies" || includes message "authentication" then 403
    else if includes message "format" then 400 else 500.
Proof.
  unfold Api.catchError.
  destruct (includes message "private" || includes message "unavailable");
    [reflexivity|].
  destruct (includes message "cookies" || includes message "authentication");
    [reflexivity|].
  now destruct (includes message "format").
Qed.

Lemma part000_catchError_status (message : string) (r : Response) :
  statusCode (Part000.catchError message r)
  = if includes message "private" || includes message "unavailable" then 403
    else if includes message "cookies" then 403 else 500.
Proof.
  unfold Part000.catchError.
  destruct (includes message "private" || includes message "unavailable");
    [reflexivity|].
  now destruct (includes message "cookies").
Qed.

(** C10.  In both handlers an error caught at the handler's boundary is
    answered by the [catch] block on its message alone.  A message that
    contains [private] or [unavailable] is answered with 403, whatever else it
    contains; the generic 500 is the answer exactly when the message contains
    none of the keywords the block tests, so the test comes before the
    fallback; and two messages that contain the same keywords get the same
    status. *)
Theorem error_classification (ytdl : Ytdl) (file : CookieFile) (req : Request)
    (message message' : string) (r : Response) :
  (includes message "private" || includes message "unavailable" = true ->
     statusCode (Api.catchError message r) = 403
     /\ statusCode (Part000.catchError message r) = 403)
  /\ (statusCode (Api.catchError message r) = 500
      <-> Forall (fun kw => includes message kw = false) keywords)
  /\ (statusCode (Part000.catchError message r) = 500
      <-> Forall (fun kw => includes message kw = false)
            ["private"; "unavailable"; "cookies"])
  /\ ((forall kw, In kw keywords -> includes message' kw = includes message kw) ->
        statusCode (Api.catchError message' r) = statusCode (Api.catchError message r)
        /\ statusCode (Part000.catchError message' r)
           = statusCode (Part000.catchError message r))
  /\ (method req = "GET" ->
      (Api.tryBlock ytdl file req Res.fresh = Raised message r ->
         res (Api.handler ytdl file req) = Api.catchError message r)
      /\ (Part000.tryBlock ytdl file req Res.fresh = Raised message r ->
            res (Part000.handler ytdl file req) = Part000.catchError message r)).
Proof.
  rewrite !api_catchError_status, !part000_catchError_status.
  split; [|split; [|split; [|split]]].
  - intros ->. auto.
  - split.
    + intros H. unfold keywords.
      destruct (includes message "private") eqn:E1,
        (includes message "unavailable") eqn:E2, (includes message "cookies") eqn:E3,
        (includes message "authentication") eqn:E4, (includes message "format") eqn:E5;
        cbn in H; try discriminate H.
      repeat (constructor; [cbn beta; assumption|]). constructor.
    + intros H. unfold keywords in H.
      apply Forall_cons_iff in H as [-> H]. apply Forall_cons_iff in H as [-> H].
      apply Forall_cons_iff in H as [-> H]. apply Forall_cons_iff in H as [-> H].
      apply Forall_cons_iff in H as [-> _]. reflexivity.
  - split.
    + intros H.
      destruct (includes message "private") eqn:E1,
        (includes message "unavailable") eqn:E2, (includes message "cookies") eqn:E3;
        cbn in H; try discriminate H.
      repeat (constructor; [cbn beta; assumption|]). constructor.
    + intros H.
      apply Forall_cons_iff in H as [-> H]. apply Forall_cons_iff in H as [-> H].
      apply Forall_cons_iff in H as [-> _]. reflexivity.
  - intros Hsame.
    rewrite !(Hsame "private"), !(Hsame "unavailable"), !(Hsame "cookies"),
      (Hsame "authentication"), (Hsame "format") by (unfold keywords; simpl; tauto).
    auto.
  - intros Hm. split; intros Ht.
    + now apply (api_handler_caught _ _ _ _ _ Hm Ht).
    + now apply (part000_handler_caught _ _ _ _ _ Hm Ht).
Qed.

Lemma error_classification_witness :
  statusCode
    (res (Api.handler (Sample.rejecting "This video is unavailable (format 18)")
            Absent Sample.get)) = 403
  /\ statusCode
       (res (Part000.handler (Sample.rejecting "This video is unavailable (format 18)")
               Absent Sample.get)) = 403.
Proof.
  destruct (error_classification
              (Sample.rejecting "This video is unavailable (format 18)")
              Absent Sample.get "This video is unavailable (format 18)"
              "This video is unavailable (format 18)" Res.fresh)
    as (H403 & _ & _ & _ & Hcaught).
  destruct (H403 eq_refl) as [HA HP].
  destruct (Hcaught eq_refl) as [CA CP].
  split.
  - rewrite (CA eq_refl). exact HA.
  - rewrite (CP eq_refl). exact HP.
Defined.

(** C7 at a failing input: in [src/api/download.js] an error whose message
    mentions a format is answered with the whole message as [details], here
    130 characters. *)
Theorem details_not_capped_on_format_error :
  let c := Api.handler (Sample.rejecting Sample.longMessage) Absent Sample.get in
  statusCode (res c) = 400
  /\ (json (res c) ≫= fun payload => payload !! "details") = Some Sample.longMessage
  /\ String.length Sample.longMessage = 130%nat.
Proof. repeat split; vm_compute; reflexivity. Qed.

(** The other answers that carry [details] in full: the stream error of
    [download.js] and the generic 500 of [part_000]. *)
Lemma details_not_capped_elsewhere (message : string) (r : Response) :
  (headersSent r = false ->
     (json (Api.onStreamError message r) ≫= fun payload => payload !! "details")
     = Some message)
  /\ (Forall (fun kw => includes message kw = false) keywords ->
      (json (Part000.catchError message r) ≫= fun payload => payload !! "details")
      = Some message).
Proof.
  split.
  - intros H. unfold Api.onStreamError. rewrite H. cbn [negb Res.statusJson json].
    cbn [mbind option_bind]. apply lookup_insert_eq.
  - intros H. unfold keywords in H.
    apply Forall_cons_iff in H as [H1 H]. apply Forall_cons_iff in H as [H2 H].
    apply Forall_cons_iff in H as [H3 _].
    unfold Part000.catchError. rewrite H1, H2, H3. cbn [orb Res.statusJson json].
    cbn [mbind option_bind]. apply lookup_insert_eq.
Qed.

End ErrorFacts.

(* ===================================================================== *)
(** ** Headers and streaming                                              *)
(* ===================================================================== *)

Section StreamFacts.
Import JS.

(** Events leave the headers as the handler set them. *)
Lemma api_step_headers (c : Conn) (e : Event) :
  headers (res (Api.step c e)) = headers (res c).
Proof.
  unfold Api.step, Api.onStreamError. destruct (videoStream c) as [vs|]; [|reflexivity].
  destruct (vs_state vs), e;
    first [ reflexivity
          | destruct (headersSent (res c)); reflexivity
          | destruct (reqClosed c); reflexivity ].
Qed.

Lemma api_run_headers (c : Conn) (events : list Event) :
  headers (res (Api.run c events)) = headers (res c).
Proof.
  unfold Api.run. revert c. induction events as [|e events IH]; intros c; simpl.
  - reflexivity.
  - now rewrite IH, api_step_headers.
Qed.

(** The response of [download.js] on the success path, when the handler
    returns: nothing is written yet, the content type and the disposition are
    set, and the content length is set exactly when the selected format has
    one; the events that write the body leave these headers in place. *)
Lemma api_download_headers (ytdl : Ytdl) (file : CookieFile) (req : Request)
    (info : Info) (f : Format) (events : list Event) :
  apiResolves ytdl file req info ->
  streamedFormat (Api.handler ytdl file req) = Some f ->
  let r := res (Api.handler ytdl file req) in
  body r = [] /\ headersSent r = false
  /\ headers r !! "Content-Type" = Some "video/mp4"
  /\ headers r !! "Content-Disposition"
     = Some ("attachment; filename=" +:+
             String dquote (Api.safeFilename (title info) +:+ ".mp4" +:+ String dquote ""))
  /\ headers r !! "Content-Length"
     = match contentLength f with
       | Some len => if truthy len then Some len else None
       | None => None
       end
  /\ headers (res (Api.run (Api.handler ytdl file req) events)) = headers r.
Proof.
  intros Hres Hf r. subst r. rewrite api_run_headers.
  rewrite (api_handler_resolved _ _ _ _ Hres) in *.
  destruct (Api.selectFormat (formats info)) as [sel|]; [|discriminate].
  destruct (api_setDownloadHeaders_cases (title info) sel Res.fresh)
    as [E | (m & r' & E & _)]; rewrite E in *; [|discriminate].
  injection Hf as ->. unfold apiDownloadHeaders.
  destruct (contentLength f) as [len|]; [destruct (truthy len)|];
    cbn [res Res.setHeader body headersSent headers Res.fresh];
    repeat split; now simplify_map_eq.
Qed.

(** C6 at a failing input: in [src/unnamed/part_000], for a selected format
    without a content length, the handler sets the header [Content-Length]
    all the same, to the text [unknown]. *)
Theorem content_length_unknown_is_set :
  let c := Part000.handler (Sample.resolving [Sample.mp4_720]) Absent Sample.get in
  streamedFormat c = Some Sample.mp4_720
  /\ contentLength Sample.mp4_720 = None
  /\ headers (res c) !! "Content-Length" = Some "unknown".
Proof. repeat split. Qed.

(** A relay that is over changes no more. *)
Lemma api_run_settled (c : Conn) (events : list Event) :
  settled c = true -> Api.run c events = c.
Proof.
  intros H. unfold Api.run. induction events as [|e events IH]; [reflexivity|].
  simpl. replace (Api.step c e) with c; [exact IH|].
  unfold Api.step. unfold settled in H.
  destruct (videoStream c) as [vs|]; [|reflexivity].
  now destruct (vs_state vs).
Qed.

Lemma part000_run_settled (c : Conn) (events : list Event) :
  settled c = true -> Part000.run c events = c.
Proof.
  intros H. unfold Part000.run. induction events as [|e events IH]; [reflexivity|].
  simpl. replace (Part000.step c e) with c; [exact IH|].
  unfold Part000.step. unfold settled in H.
  destruct (videoStream c) as [vs|]; [|reflexivity].
  now destruct (vs_state vs).
Qed.

(** Once the headers are out, no event sends a payload, and no event but the
    end of the stream ends the response. *)
Lemma api_step_committed (c : Conn) (e : Event) :
  headersSent (res c) = true ->
  headersSent (res (Api.step c e)) = true /\ json (res (Api.step c e)) = json (res c).
Proof.
  intros H. unfold Api.step, Api.onStreamError.
  destruct (videoStream c) as [vs|]; [|auto].
  destruct (vs_state vs), e; auto; cbn [res]; rewrite ?H; auto;
    destruct (reqClosed c); auto.
Qed.

Lemma part000_step_committed (c : Conn) (e : Event) :
  headersSent (res c) = true ->
  headersSent (res (Part000.step c e)) = true
  /\ json (res (Part000.step c e)) = json (res c).
Proof.
  intros H. unfold Part000.step, Part000.onStreamError.
  destruct (videoStream c) as [vs|]; [|auto].
  destruct (vs_state vs), e; auto; cbn [res]; rewrite ?H; auto;
    destruct (reqClosed c); auto.
Qed.

Lemma api_run_committed (c : Conn) (events : list Event) :
  headersSent (res c) = true -> json (res (Api.run c events)) = json (res c).
Proof.
  unfold Api.run. revert c. induction events as [|e events IH]; intros c H; simpl.
  - reflexivity.
  - destruct (api_step_committed c e H) as [Hs Hj]. now rewrite (IH _ Hs).
Qed.

Lemma part000_run_committed (c : Conn) (events : list Event) :
  headersSent (res c) = true -> json (res (Part000.run c events)) = json (res c).
Proof.
  unfold Part000.run. revert c. induction events as [|e events IH]; intros c H; simpl.
  - reflexivity.
  - destruct (part000_step_committed c e H) as [Hs Hj]. now rewrite (IH _ Hs).
Qed.

Lemma streaming_inv (c : Conn) :
  relayState c = StreamingBody ->
  exists vs, videoStream c = Some vs /\ vs_state vs = Flowing.
Proof.
  unfold relayState. destruct (videoStream c) as [vs|]; [|discriminate].
  destruct (vs_state vs) eqn:E; try discriminate. eauto.
Qed.

(** An error of the flowing stream: the listener, and the stream has failed. *)
Lemma api_step_error (c : Conn) (message : string) :
  relayState c = StreamingBody ->
  res (Api.step c (StreamError message)) = Api.onStreamError message (res c)
  /\ settled (Api.step c (StreamError message)) = true.
Proof.
  intros Hs. destruct (streaming_inv c Hs) as (vs & Hv & Hf).
  unfold Api.step, settled. now rewrite Hv, Hf.
Qed.

Lemma part000_step_error (c : Conn) (message : string) :
  relayState c = StreamingBody ->
  res (Part000.step c (StreamError message)) = Part000.onStreamError message (res c)
  /\ settled (Part000.step c (StreamError message)) = true.
Proof.
  intros Hs. destruct (streaming_inv c Hs) as (vs & Hv & Hf).
  unfold Part000.step, settled. now rewrite Hv, Hf.
Qed.

(** When the client closes the connection of [part_000] while the stream
    flows, the listener of line 143 destroys the stream, and whatever the
    stream does afterwards the response stays as it was. *)
Lemma part000_client_close_destroys (c : Conn) (events : list Event) :
  relayState c = StreamingBody -> reqClosed c = false ->
  relayState (Part000.run c (ReqClose :: events)) = Aborted
  /\ (exists vs, videoStream (Part000.run c (ReqClose :: events)) = Some vs
                 /\ vs_state vs = Destroyed)
  /\ res (Part000.run c (ReqClose :: events)) = res c.
Proof.
  intros Hs Hr. destruct (streaming_inv c Hs) as (vs & Hv & Hf).
  change (Part000.run c (ReqClose :: events))
    with (Part000.run (Part000.step c ReqClose) events).
  rewrite part000_run_settled; unfold Part000.step, settled, relayState;
    rewrite Hv, Hf, Hr; [|reflexivity].
  cbn [videoStream vs_state res]. eauto.
Qed.

(** The handler of [part_000] leaves the request open, and events keep it so. *)
Lemma part000_handler_reqClosed (ytdl : Ytdl) (file : CookieFile) (req : Request)
    (events : list Event) :
  reqClosed (Part000.run (Part000.handler ytdl file req) events) = false.
Proof.
  assert (H0 : reqClosed (Part000.handler ytdl file req) = false).
  { unfold Part000.handler, Part000.tryBlock.
    destruct (negb (String.eqb (method req) "GET")); [reflexivity|].
    destruct (query_url req) as [url|]; [|reflexivity].
    destruct (negb (truthy url)); [reflexivity|].
    destruct (negb (validateURL ytdl url)); [reflexivity|].
    rewrite part000_loadCookies_eq. cbn [attempt]. rewrite bind_Done.
    destruct (getInfo ytdl url _) as [info|m]; cbn [attempt];
      [rewrite bind_Done | reflexivity].
    destruct (Part000.selectFormat (formats info)) as [f|]; [|reflexivity].
    now destruct (Part000.setDownloadHeaders _ _ _). }
  unfold Part000.run. revert H0. generalize (Part000.handler ytdl file req).
  induction events as [|e events IH]; intros c Hc; [exact Hc|].
  simpl. apply IH. unfold Part000.step.
  destruct (videoStream c) as [vs|]; [|exact Hc].
  destruct (vs_state vs), e; try exact Hc; cbn [reqClosed]; try exact Hc;
    now destruct (reqClosed c).
Qed.

(** In [download.js] the request has emitted its ['close'] by the time a
    stream is open, so no event ever destroys the stream. *)
Lemma api_stream_never_destroyed (ytdl : Ytdl) (file : CookieFile) (req : Request)
    (events : list Event) (vs : VideoStream) :
  videoStream (Api.run (Api.handler ytdl file req) events) = Some vs ->
  vs_state vs <> Destroyed.
Proof.
  assert (H0 : forall vs0, videoStream (Api.handler ytdl file req) = Some vs0 ->
                 reqClosed (Api.handler ytdl file req) = true
                 /\ vs_state vs0 <> Destroyed).
  { unfold Api.handler, Api.tryBlock.
    destruct (negb (String.eqb (method req) "GET")); [discriminate|].
    destruct (query_url req) as [url|]; [|discriminate].
    destruct (negb (truthy url)); [discriminate|].
    destruct (negb (validateURL ytdl url)); [discriminate|].
    rewrite api_loadCookies_eq. cbn [attempt]. rewrite bind_Done.
    destruct (getInfo ytdl url _) as [info|m]; cbn [attempt];
      [rewrite bind_Done | discriminate].
    destruct (Api.selectFormat (formats info)) as [f|]; [|discriminate].
    destruct (Api.setDownloadHeaders _ _ _); [|discriminate].
    cbn [bind_Done mbind Attempt_bind videoStream reqClosed].
    intros vs0 [= <-]. split; [reflexivity | discriminate]. }
  unfold Api.run. revert vs H0. generalize (Api.handler ytdl file req).
  induction events as [|e events IH]; intros c vs Hc Hv; [now apply Hc|].
  simpl in Hv. apply (IH (Api.step c e) vs); [|exact Hv].
  clear IH Hv vs. intros vs1. unfold Api.step.
  destruct (videoStream c) as [vs|] eqn:Hvs; [|now rewrite Hvs].
  destruct (Hc vs eq_refl) as [Hr Hd]. rewrite Hr.
  destruct (vs_state vs) eqn:Hf, e; rewrite ?Hvs; cbn [videoStream reqClosed];
    try (intros [= <-]; cbn [vs_state]; split;
         [first [reflexivity | exact Hr] | congruence]).
Qed.

End StreamFacts.

Section StreamClaims.
Import JS.

(** C8, as amended.  In both handlers, an error of the stream while it flows
    is answered with the 500 payload exactly when the headers have not been
    sent.  When they have been sent the listener leaves the response as it
    is: the handler sends no structured error and does not end the response
    either, and no later event sends a payload or changes the response. *)
Theorem no_payload_after_headers (c : Conn) (message : string)
    (events : list Event) :
  (relayState c = StreamingBody -> headersSent (res c) = false ->
     (statusCode (res (Api.step c (StreamError message))) = 500
      /\ json (res (Api.step c (StreamError message)))
         = Some (<["details" := message]> {["error" := "Stream failed"]}))
     /\ (statusCode (res (Part000.step c (StreamError message))) = 500
         /\ json (res (Part000.step c (StreamError message)))
            = Some {["error" := "Stream failed"]}))
  /\ (headersSent (res c) = true ->
        res (Api.step c (StreamError message)) = res c
        /\ res (Part000.step c (StreamError message)) = res c
        /\ json (res (Api.run c events)) = json (res c)
        /\ json (res (Part000.run c events)) = json (res c))
  /\ (relayState c = StreamingBody ->
        Api.run (Api.step c (StreamError message)) events
        = Api.step c (StreamError message)
        /\ Part000.run (Part000.step c (StreamError message)) events
           = Part000.step c (StreamError message))
  /\ (relayState c = StreamingBody -> headersSent (res c) = true ->
        res (Api.run (Api.step c (StreamError message)) events) = res c
        /\ ended (res (Api.run (Api.step c (StreamError message)) events))
           = ended (res c)
        /\ res (Part000.run (Part000.step c (StreamError message)) events) = res c
        /\ ended (res (Part000.run (Part000.step c (StreamError message)) events))
           = ended (res c)).
Proof.
  split; [|split; [|split]].
  - intros Hs Hh.
    destruct (api_step_error c message Hs) as [-> _].
    destruct (part000_step_error c message Hs) as [-> _].
    unfold Api.onStreamError, Part000.onStreamError. rewrite Hh. repeat split.
  - intros Hh. repeat split.
    + unfold Api.step, Api.onStreamError. destruct (videoStream c) as [vs|]; [|reflexivity].
      destruct (vs_state vs); try reflexivity; cbn [res]; now rewrite Hh.
    + unfold Part000.step, Part000.onStreamError.
      destruct (videoStream c) as [vs|]; [|reflexivity].
      destruct (vs_state vs); try reflexivity; cbn [res]; now rewrite Hh.
    + now apply api_run_committed.
    + now apply part000_run_committed.
  - intros Hs. split.
    + apply api_run_settled. now apply api_step_error.
    + apply part000_run_settled. now apply part000_step_error.
  - intros Hs Hh.
    destruct (api_step_error c message Hs) as [HA HAs].
    destruct (part000_step_error c message Hs) as [HP HPs].
    rewrite (api_run_settled _ events HAs), (part000_run_settled _ events HPs), HA, HP.
    unfold Api.onStreamError, Part000.onStreamError. rewrite Hh. now repeat split.
Qed.

Lemma no_payload_after_headers_witness :
  let c := Api.handler (Sample.resolving [Sample.mp4_360]) Absent Sample.get in
  json (res (Api.step c (StreamError "aborted")))
  = Some (<["details" := "aborted"]> {["error" := "Stream failed"]})
  /\ json (res (Api.run (Api.step c (Data "chunk")) [StreamError "aborted"])) = None
  /\ body (res (Api.run (Api.step c (Data "chunk")) [StreamError "aborted"; Data "late"]))
     = ["chunk"].
Proof.
  intros c.
  destruct (no_payload_after_headers c "aborted" []) as (H1 & _ & _).
  destruct (no_payload_after_headers (Api.step c (Data "chunk")) "aborted"
              [StreamError "aborted"]) as (_ & H2 & _).
  destruct (no_payload_after_headers (Api.step c (Data "chunk")) "aborted"
              [Data "late"]) as (_ & _ & H3 & _).
  split; [|split].
  - apply H1; reflexivity.
  - destruct H2 as (_ & _ & H2 & _); [reflexivity|]. rewrite H2. reflexivity.
  - destruct H3 as [H3 _]; [reflexivity|].
    change (Api.run (Api.step c (Data "chunk")) [StreamError "aborted"; Data "late"])
      with (Api.run (Api.step (Api.step c (Data "chunk")) (StreamError "aborted"))
              [Data "late"]).
    rewrite H3. reflexivity.
Defined.

(** C8 fails as stated in both handlers: after an error of the stream in the
    middle of the transfer the headers are sent, no payload follows, and the
    response is not ended: the connection is left open. *)
Lemma no_payload_after_headers_counterexample :
  let events := [Data "chunk"; StreamError "aborted"] in
  let a := Api.run (Api.handler (Sample.resolving [Sample.mp4_360]) Absent Sample.get)
             events in
  let p := Part000.run
             (Part000.handler (Sample.resolving [Sample.mp4_360]) Absent Sample.get)
             events in
  (headersSent (res a) = true /\ json (res a) = None /\ ended (res a) = false)
  /\ (headersSent (res p) = true /\ json (res p) = None /\ ended (res p) = false).
Proof. repeat split. Qed.

(** C9 at a failing input: in [src/api/download.js], when the client closes
    the connection while the stream flows, the stream is not destroyed: the
    request has emitted its ['close'] before the listener of line 156 was
    registered, so the listener is not called and the stream is only detached
    from the response.  [src/unnamed/part_000] destroys the stream at the
    same input. *)
Theorem client_close_leaves_stream_open :
  let events := [Data "chunk"; ReqClose] in
  let a := Api.run (Api.handler (Sample.resolving [Sample.mp4_360]) Absent Sample.get)
             events in
  let p := Part000.run
             (Part000.handler (Sample.resolving [Sample.mp4_360]) Absent Sample.get)
             events in
  option_map vs_state (videoStream a) = Some Unpiped
  /\ option_map vs_state (videoStream p) = Some Destroyed.
Proof. split; reflexivity. Qed.

End StreamClaims.

(* ===================================================================== *)
(** ** Trimming and splitting                                             *)
(* ===================================================================== *)

Section TrimSplitFacts.
Import JS.

Lemma append_empty_r (s : string) : s +:+ "" = s.
Proof. induction s as [|a s IH]; [reflexivity|]. now rewrite append_cons, IH. Qed.

Lemma append_nonempty_r (a b : string) : b <> "" -> a +:+ b <> "".
Proof. destruct a; [now rewrite append_empty_l | rewrite append_cons; discriminate]. Qed.

Lemma trimStart_blank (s : string) : blank s = true -> trimStart s = "".
Proof.
  induction s as [|c s IH]; [reflexivity|]. unfold blank. simpl.
  intros H. apply andb_true_iff in H as [Hc Hs]. rewrite Hc. now apply IH.
Qed.

Lemma trimEnd_blank (s : string) : blank s = true -> trimEnd s = "".
Proof.
  induction s as [|c s IH]; [reflexivity|]. unfold blank. simpl.
  intros H. apply andb_true_iff in H as [Hc Hs]. now rewrite (IH Hs), Hc.
Qed.

Lemma trimStart_app_blank (pre s : string) :
  blank pre = true -> trimStart (pre +:+ s) = trimStart s.
Proof.
  induction pre as [|c pre IH]; [reflexivity|].
  intros H. unfold blank in H. simpl in H. apply andb_true_iff in H as [Hc Hs].
  rewrite append_cons. simpl. rewrite Hc. now apply IH.
Qed.

Lemma trimEnd_app_blank (s post : string) :
  blank post = true -> trimEnd (s +:+ post) = trimEnd s.
Proof.
  intros H. induction s as [|c s IH].
  - rewrite append_empty_l. now apply trimEnd_blank.
  - rewrite append_cons. simpl. now rewrite IH.
Qed.

Lemma trim_app_blank (s post : string) :
  blank post = true -> trim (s +:+ post) = trim s.
Proof.
  intros H. unfold trim. induction s as [|c s IH].
  - rewrite append_empty_l, (trimStart_blank _ H). reflexivity.
  - rewrite append_cons. simpl. destruct (isWhiteSpace c); [exact IH|].
    rewrite <- append_cons. now apply trimEnd_app_blank.
Qed.

(** White space around a line does not show after [trim]. *)
Lemma trim_surround (pre s post : string) :
  blank pre = true -> blank post = true -> trim (pre +:+ s +:+ post) = trim s.
Proof.
  intros Hpre Hpost. unfold trim. rewrite (trimStart_app_blank _ _ Hpre).
  now apply trim_app_blank.
Qed.

Lemma trimEnd_cons_fixed (c : ascii) (s : string) :
  s <> "" -> trimEnd s = s -> trimEnd (String c s) = String c s.
Proof. intros Hne H. simpl. rewrite H. now destruct s. Qed.

Lemma trimEnd_app_fixed (a b : string) :
  b <> "" -> trimEnd b = b -> trimEnd (a +:+ b) = a +:+ b.
Proof.
  intros Hne H. induction a as [|c a IH]; [now rewrite append_empty_l|].
  rewrite append_cons. apply trimEnd_cons_fixed; [now apply append_nonempty_r | exact IH].
Qed.

Lemma trimStart_app_fixed (a b : string) :
  a <> "" -> trimStart a = a -> trimStart (a +:+ b) = a +:+ b.
Proof.
  destruct a as [|c a]; [congruence|]. intros _. rewrite append_cons. simpl.
  destruct (isWhiteSpace c); [|reflexivity].
  intros H. exfalso.
  assert (Hlen : forall s, (String.length (trimStart s) <= String.length s)%nat).
  { induction s as [|x s IH]; simpl; [lia|]. destruct (isWhiteSpace x); simpl; lia. }
  specialize (Hlen a). rewrite H in Hlen. simpl in Hlen. lia.
Qed.

Lemma allChars_app (p : ascii -> bool) (a b : string) :
  allChars p (a +:+ b) = allChars p a && allChars p b.
Proof.
  induction a as [|c a IH]; [reflexivity|].
  rewrite append_cons. simpl. now rewrite IH, andb_assoc.
Qed.

(** Splitting at a separator that a first field does not contain. *)
Lemma split_free (sep : ascii) (a : string) :
  charFree sep a = true -> split sep a = [a].
Proof.
  induction a as [|c a IH]; [reflexivity|]. unfold charFree. simpl.
  intros H. apply andb_true_iff in H as [Hc Ha]. apply negb_true_iff in Hc.
  now rewrite Hc, (IH Ha).
Qed.

Lemma split_app_sep (sep : ascii) (a b : string) :
  charFree sep a = true -> split sep (a +:+ String sep b) = a :: split sep b.
Proof.
  induction a as [|c a IH].
  - intros _. rewrite append_empty_l. simpl. now rewrite Ascii.eqb_refl.
  - intros H. unfold charFree in H. simpl in H. apply andb_true_iff in H as [Hc Ha].
    apply negb_true_iff in Hc. rewrite append_cons. simpl. now rewrite Hc, (IH Ha).
Qed.

(** Joining with a separator of one character and splitting at it gives the
    fields back, where no field contains the separator. *)
Lemma split_join (sep : ascii) (fields : list string) :
  fields <> [] -> Forall (fun f => charFree sep f = true) fields ->
  split sep (join (String sep "") fields) = fields.
Proof.
  intros Hne Hall. induction Hall as [|f fields Hf Hall IH]; [congruence|].
  destruct fields as [|g fields].
  - simpl. now apply split_free.
  - change (join (String sep "") (f :: g :: fields))
      with (f +:+ String sep "" +:+ join (String sep "") (g :: fields)).
    rewrite append_cons, append_empty_l, (split_app_sep _ _ _ Hf).
    rewrite IH; [reflexivity | discriminate].
Qed.

End TrimSplitFacts.

Section CookieLineProperties.
Import JS.

(** X1.  In [src/api/download.js] white space around a line of the cookie file
    does not count: a line and the same line with white space before and after
    it yield the same token or none.  So a file with lines that end in a
    carriage return yields the tokens of the file without them. *)
Theorem api_line_ignores_surrounding_space (pre line post : string)
    (lines : list string) :
  (blank pre = true -> blank post = true ->
     Api.lineToken (pre +:+ line +:+ post) = Api.lineToken line)
  /\ Api.parseLines (map (fun l => l +:+ String "013" "") lines) = Api.parseLines lines.
Proof.
  assert (H : forall pre line post, blank pre = true -> blank post = true ->
                Api.lineToken (pre +:+ line +:+ post) = Api.lineToken line).
  { intros p l q Hp Hq. unfold Api.lineToken. now rewrite (trim_surround _ _ _ Hp Hq). }
  split; [apply H|].
  rewrite !api_parseLines_omap. induction lines as [|l lines IH]; [reflexivity|].
  cbn [map]. rewrite !omap_cons, IH.
  rewrite <- (append_empty_l (l +:+ String "013" "")).
  rewrite (H "" l (String "013" "")); reflexivity.
Qed.

Lemma api_line_ignores_surrounding_space_witness :
  Api.lineToken ("  " +:+ Sample.cookieLineOf ".youtube.com" "SID" "abc" +:+ String "013" "")
  = Some "SID=abc".
Proof.
  destruct (api_line_ignores_surrounding_space
              "  " (Sample.cookieLineOf ".youtube.com" "SID" "abc") (String "013" "") [])
    as [H _].
  rewrite H; reflexivity.
Defined.

End CookieLineProperties.

(* ===================================================================== *)
(** ** Cookie files written and read back                                 *)
(* ===================================================================== *)

Section CookieRoundTrip.
Import JS.

Lemma wellFormedCookie_inv (c : Cookie) :
  wellFormedCookie c = true ->
  plainField (c_domain c) = true /\ plainField (c_name c) = true
  /\ plainField (c_value c) = true
  /\ c_domain c <> "" /\ trimStart (c_domain c) = c_domain c
  /\ startsWith (c_domain c) "#" = false /\ startsWith (c_domain c) "//" = false
  /\ truthy (c_name c) = true
  /\ truthy (c_value c) = true /\ trimEnd (c_value c) = c_value c.
Proof.
  unfold wellFormedCookie. rewrite !andb_true_iff, !negb_true_iff.
  intros [[[[[[[[[H1 H2] H3] H4] H5] H6] H7] H8] H9] H10].
  apply String.eqb_eq in H5, H10. apply truthy_true in H4. tauto.
Qed.

Lemma plainField_inv (s : string) :
  plainField s = true -> charFree tab s = true /\ charFree newline s = true.
Proof. unfold plainField. now rewrite andb_true_iff. Qed.

Lemma renderLine_split (c : Cookie) :
  wellFormedCookie c = true ->
  split tab (renderLine c)
  = [c_domain c; "TRUE"; "/"; "TRUE"; "0"; c_name c; c_value c].
Proof.
  intros H. apply wellFormedCookie_inv in H as (Hd & Hn & Hv & _).
  apply plainField_inv in Hd as [Hd _], Hn as [Hn _], Hv as [Hv _].
  unfold renderLine, Sample.cookieLineOf.
  rewrite (split_app_sep tab _ _ Hd).
  rewrite !(split_app_sep tab _ _ (eq_refl : charFree tab "TRUE" = true)).
  rewrite (split_app_sep tab "/" _ eq_refl).
  rewrite !(split_app_sep tab _ _ (eq_refl : charFree tab "TRUE" = true)).
  rewrite (split_app_sep tab "0" _ eq_refl).
  now rewrite (split_app_sep tab _ _ Hn), (split_free tab _ Hv).
Qed.

Lemma renderLine_trim (c : Cookie) :
  wellFormedCookie c = true -> trim (renderLine c) = renderLine c.
Proof.
  intros H. apply wellFormedCookie_inv in H as (_ & _ & _ & Hd & Hds & _ & _ & _ & Hv & Hve).
  apply truthy_true in Hv.
  unfold trim, renderLine, Sample.cookieLineOf.
  rewrite (trimStart_app_fixed _ _ Hd Hds).
  repeat first
    [ apply trimEnd_app_fixed; [try discriminate; try (apply append_nonempty_r; discriminate)|]
    | apply trimEnd_cons_fixed; [try assumption; try discriminate;
                                 try (apply append_nonempty_r; discriminate)|] ].
  exact Hve.
Qed.

Lemma renderLine_not_comment (c : Cookie) :
  wellFormedCookie c = true ->
  startsWith (renderLine c) "#" = false /\ startsWith (renderLine c) "//" = false.
Proof.
  intros H. apply wellFormedCookie_inv in H as (_ & _ & _ & Hd & _ & Hh & Hs & _).
  unfold startsWith, renderLine, Sample.cookieLineOf in *.
  destruct (c_domain c) as [|x d]; [congruence|]. clear Hd.
  rewrite append_cons. split.
  - match goal with |- ?b = false => destruct b eqn:E end; [|reflexivity].
    apply prefix_app in E as [post E]. rewrite append_cons in E.
    injection E as -> _. now destruct d.
  - match goal with |- ?b = false => destruct b eqn:E end; [|reflexivity].
    apply prefix_app in E as [post E]. rewrite append_cons in E.
    injection E as -> E. destruct d as [|y d].
    + rewrite append_empty_l, append_cons in E. discriminate.
    + rewrite !append_cons in E. injection E as -> _.
      simpl in Hs. now destruct d.
Qed.

Lemma renderLine_cookieLine (c : Cookie) :
  wellFormedCookie c = true ->
  apiCookieLine (renderLine c) = true /\ part000CookieLine (renderLine c) = true
  /\ tokenOf (split tab (renderLine c)) = cookiePair c.
Proof.
  intros H. pose proof (renderLine_split c H) as Hsplit.
  pose proof (renderLine_trim c H) as Htrim.
  destruct (renderLine_not_comment c H) as [Hh Hs].
  apply wellFormedCookie_inv in H as (_ & _ & _ & Hd & _ & _ & _ & Hn & Hv & _).
  assert (Ht : truthy (renderLine c) = true).
  { unfold renderLine, Sample.cookieLineOf. destruct (c_domain c); [congruence|].
    now rewrite append_cons. }
  unfold apiCookieLine, part000CookieLine, tokenOf.
  rewrite Htrim, Hsplit, Ht, Hh, Hs. unfold at_. simpl. now rewrite Hn, Hv.
Qed.

Lemma renderLine_newline_free (c : Cookie) :
  wellFormedCookie c = true -> charFree newline (renderLine c) = true.
Proof.
  intros H. apply wellFormedCookie_inv in H as (Hd & Hn & Hv & _).
  apply plainField_inv in Hd as [_ Hd], Hn as [_ Hn], Hv as [_ Hv].
  unfold charFree, renderLine, Sample.cookieLineOf in *.
  repeat (rewrite allChars_app; cbn [allChars]).
  now rewrite Hd, Hn, Hv.
Qed.

Lemma Forall_map_intro {A B : Type} (P : A -> Prop) (Q : B -> Prop) (f : A -> B)
    (l : list A) :
  (forall x, P x -> Q (f x)) -> Forall P l -> Forall Q (map f l).
Proof. intros H. induction 1; simpl; constructor; auto. Qed.

Lemma renderFile_lines (cs : list Cookie) :
  cs <> [] -> Forall (fun c => wellFormedCookie c = true) cs ->
  split newline (renderFile cs) = map renderLine cs.
Proof.
  intros Hne Hall. unfold renderFile. apply split_join.
  - now destruct cs.
  - apply (Forall_map_intro _ _ _ _ renderLine_newline_free Hall).
Qed.

(** X2.  A cookie file written from well-formed cookies, one line of seven
    tab-separated fields per cookie, reads back in both handlers as the header
    [name=value; name=value; ...] of these cookies, in their order. *)
Theorem cookie_file_round_trip (cs : list Cookie) :
  Forall (fun c => wellFormedCookie c = true) cs ->
  Api.loadCookies (Content (renderFile cs)) = Normal (join "; " (map cookiePair cs))
  /\ Part000.loadCookies (Content (renderFile cs))
     = Normal (join "; " (map cookiePair cs)).
Proof.
  intros Hall. destruct cs as [|c0 cs]; [split; reflexivity|].
  assert (Hlines : cookieLines (Content (renderFile (c0 :: cs)))
                   = map renderLine (c0 :: cs))
    by (apply renderFile_lines; [discriminate | exact Hall]).
  rewrite api_loadCookies_eq, part000_loadCookies_eq, Hlines.
  assert (HA : Forall (fun l => apiCookieLine l = true) (map renderLine (c0 :: cs))).
  { refine (Forall_map_intro _ _ _ _ _ Hall).
    intros c Hc. now apply renderLine_cookieLine. }
  assert (HP : Forall (fun l => part000CookieLine l = true) (map renderLine (c0 :: cs))).
  { refine (Forall_map_intro _ _ _ _ _ Hall).
    intros c Hc. now apply renderLine_cookieLine. }
  rewrite (api_parse_cookieLines _ HA), (part000_parse_cookieLines _ HP), !map_map.
  assert (E1 : map (fun c => tokenOf (split tab (trim (renderLine c)))) (c0 :: cs)
               = map cookiePair (c0 :: cs)).
  { apply map_ext_in. intros c Hc.
    assert (Hw : wellFormedCookie c = true)
      by (exact (proj1 (List.Forall_forall _ _) Hall c Hc)).
    rewrite (renderLine_trim c Hw). now apply renderLine_cookieLine. }
  assert (E2 : map (fun c => tokenOf (split tab (renderLine c))) (c0 :: cs)
               = map cookiePair (c0 :: cs)).
  { apply map_ext_in. intros c Hc.
    assert (Hw : wellFormedCookie c = true)
      by (exact (proj1 (List.Forall_forall _ _) Hall c Hc)).
    now apply renderLine_cookieLine. }
  now rewrite E1, E2.
Qed.

Lemma cookie_file_round_trip_witness :
  Api.loadCookies
    (Content (renderFile [mkCookie ".youtube.com" "SID" "a b"; mkCookie "/x" "HSID" "d"]))
  = Normal "SID=a b; HSID=d".
Proof.
  apply (cookie_file_round_trip
           [mkCookie ".youtube.com" "SID" "a b"; mkCookie "/x" "HSID" "d"]).
  repeat constructor.
Defined.

End CookieRoundTrip.

(* ===================================================================== *)
(** ** The request options                                                *)
(* ===================================================================== *)

Section RequestOptionsProperties.
Import JS.

Lemma tokenOf_nonempty (parts : list string) : tokenOf parts <> "".
Proof.
  unfold tokenOf. destruct (at_ parts 5); [rewrite append_empty_l|]; discriminate.
Qed.

Lemma join_nonempty (sep : string) (ts : list string) :
  ts <> [] -> Forall (fun t => t <> "") ts -> join sep ts <> "".
Proof.
  intros Hne Hall. destruct Hall as [|t ts Ht Hall]; [congruence|].
  destruct ts as [|u ts]; [exact Ht|].
  change (join sep (t :: u :: ts)) with (t +:+ sep +:+ join sep (u :: ts)).
  destruct t; [congruence | rewrite append_cons; discriminate].
Qed.

Lemma api_tokens_nonempty (lines : list string) :
  Forall (fun t => t <> "") (Api.parseLines lines).
Proof.
  rewrite api_parseLines_filter.
  apply (Forall_map_intro (fun _ => True)); [intros; apply tokenOf_nonempty|].
  induction (List.filter apiCookieLine lines); constructor; auto.
Qed.

Lemma part000_tokens_nonempty (lines : list string) :
  Forall (fun t => t <> "") (Part000.parseLines lines).
Proof.
  rewrite part000_parseLines_filter.
  apply (Forall_map_intro (fun _ => True)); [intros; apply tokenOf_nonempty|].
  induction (List.filter part000TokenLine lines); constructor; auto.
Qed.

(** X3.  The resolver is asked with a [Cookie] header exactly when the cookie
    file yields a token, and the header is then the tokens joined;
    [src/api/download.js] adds its [User-Agent] only together with the cookies.
    [ytdl.getInfo] is consulted under these request options and no others:
    a resolver that agrees with it there gives the same answer of the
    handler. *)
Theorem cookie_header_reaches_resolver (ytdl : Ytdl)
    (getInfo' : string -> RequestOptions -> Completion Info)
    (file : CookieFile) (req : Request) :
  let tokensApi := Api.parseLines (cookieLines file) in
  let tokensPart000 := Part000.parseLines (cookieLines file) in
  let optionsApi := Api.requestOptions (join "; " tokensApi) in
  let optionsPart000 := Part000.requestOptions (join "; " tokensPart000) in
  ro_headers optionsApi
  = match tokensApi with
    | [] => None
    | _ :: _ =>
        Some (<["User-Agent" :=
                "Mozilla/5.0 (Windows NT 10.0; Win64; x64) AppleWebKit/537.36"]>
                {["Cookie" := join "; " tokensApi]})
    end
  /\ ro_headers optionsPart000
     = match tokensPart000 with
       | [] => None
       | _ :: _ => Some {["Cookie" := join "; " tokensPart000]}
       end
  /\ ((forall url, getInfo' url optionsApi = getInfo ytdl url optionsApi) ->
        Api.handler (mkYtdl (validateURL ytdl) getInfo') file req
        = Api.handler ytdl file req)
  /\ ((forall url, getInfo' url optionsPart000 = getInfo ytdl url optionsPart000) ->
        Part000.handler (mkYtdl (validateURL ytdl) getInfo') file req
        = Part000.handler ytdl file req).
Proof.
  intros tokensApi tokensPart000 optionsApi optionsPart000.
  split; [|split; [|split]].
  - subst optionsApi. unfold Api.requestOptions.
    destruct tokensApi as [|t ts] eqn:E; [reflexivity|].
    assert (Hne : join "; " (t :: ts) <> "").
    { apply join_nonempty; [discriminate|]. rewrite <- E. apply api_tokens_nonempty. }
    apply truthy_true in Hne. now rewrite Hne.
  - subst optionsPart000. unfold Part000.requestOptions.
    destruct tokensPart000 as [|t ts] eqn:E; [reflexivity|].
    assert (Hne : join "; " (t :: ts) <> "").
    { apply join_nonempty; [discriminate|]. rewrite <- E. apply part000_tokens_nonempty. }
    apply truthy_true in Hne. now rewrite Hne.
  - intros H. unfold Api.handler, Api.tryBlock. cbn [validateURL getInfo].
    destruct (negb (String.eqb (method req) "GET")); [reflexivity|].
    destruct (query_url req) as [url|]; [|reflexivity].
    destruct (negb (truthy url)); [reflexivity|].
    destruct (negb (validateURL ytdl url)); [reflexivity|].
    rewrite api_loadCookies_eq. cbn [attempt]. rewrite bind_Done.
    fold tokensApi. fold optionsApi. now rewrite H.
  - intros H. unfold Part000.handler, Part000.tryBlock. cbn [validateURL getInfo].
    destruct (negb (String.eqb (method req) "GET")); [reflexivity|].
    destruct (query_url req) as [url|]; [|reflexivity].
    destruct (negb (truthy url)); [reflexivity|].
    destruct (negb (validateURL ytdl url)); [reflexivity|].
    rewrite part000_loadCookies_eq. cbn [attempt]. rewrite bind_Done.
    fold tokensPart000. fold optionsPart000. now rewrite H.
Qed.

Lemma cookie_header_reaches_resolver_witness :
  Api.handler
    (mkYtdl (fun _ => true)
       (fun _ options =>
          match ro_headers options with
          | None => Normal (mkInfo [Sample.mp4_360] "clip")
          | Some _ => Throw "cookies rejected"
          end))
    Absent Sample.get
  = Api.handler (Sample.resolving [Sample.mp4_360]) Absent Sample.get.
Proof.
  destruct (cookie_header_reaches_resolver (Sample.resolving [Sample.mp4_360])
              (fun _ options =>
                 match ro_headers options with
                 | None => Normal (mkInfo [Sample.mp4_360] "clip")
                 | Some _ => Throw "cookies rejected"
                 end)
              Absent Sample.get) as (_ & _ & H & _).
  apply H. reflexivity.
Defined.

End RequestOptionsProperties.

(* ===================================================================== *)
(** ** File names                                                         *)
(* ===================================================================== *)

Section FilenameProperties.
Import JS.

Lemma allChars_substring0 (p : ascii -> bool) (n : nat) (s : string) :
  allChars p s = true -> allChars p (substring0 n s) = true.
Proof.
  unfold substring0. revert s. induction n as [|n IH]; intros s H.
  - now destruct s.
  - destruct s as [|c s]; [reflexivity|]. simpl in *.
    apply andb_true_iff in H as [Hc Hs]. now rewrite Hc, (IH s Hs).
Qed.

Lemma allChars_replaceClass (cls p : ascii -> bool) (r : ascii) (s : string) :
  p r = true -> (forall c, cls c = false -> p c = true) ->
  allChars p (replaceClass cls r s) = true.
Proof.
  intros Hr Hp. induction s as [|c s IH]; [reflexivity|]. simpl.
  rewrite IH, andb_true_r. destruct (cls c) eqn:E; [exact Hr | now apply Hp].
Qed.

Lemma allChars_replaceRuns (p : ascii -> bool) (r : ascii) (s : string) (inRun : bool) :
  p r = true -> isWhiteSpace r = false -> allChars p s = true ->
  allChars (fun c => p c && negb (isWhiteSpace c)) (replaceRuns inRun r s) = true.
Proof.
  intros Hr Hw. revert inRun. induction s as [|c s IH]; intros inRun H; [reflexivity|].
  simpl in H. apply andb_true_iff in H as [Hc Hs]. simpl.
  destruct (isWhiteSpace c) eqn:E.
  - destruct inRun; [now apply IH|]. simpl. now rewrite Hr, Hw, (IH true Hs).
  - simpl. now rewrite Hc, E, (IH false Hs).
Qed.

Lemma orElse_cases (s d : string) :
  (s <> "" /\ orElse s d = s) \/ (s = "" /\ orElse s d = d).
Proof. destruct s; [right | left]; split; (reflexivity || discriminate). Qed.

(** X4.  The file name [src/api/download.js] derives from a title is never
    empty, has at most 100 characters, and holds none of the characters the
    handler replaces (angle brackets, colon, double quote, slash, backslash,
    bar, question mark, star) and no white space, so no quote and no line
    break reaches the [Content-Disposition] header. *)
Theorem api_safeFilename_safe (title : string) :
  Api.safeFilename title <> ""
  /\ (String.length (Api.safeFilename title) <= 100)%nat
  /\ allChars (fun c => negb (Api.unsafeChar c) && negb (isWhiteSpace c))
       (Api.safeFilename title) = true.
Proof.
  unfold Api.safeFilename.
  set (cut := substring0 100 (replaceRuns false "_" (replaceClass Api.unsafeChar "_" title))).
  assert (Hcut : allChars (fun c => negb (Api.unsafeChar c) && negb (isWhiteSpace c)) cut
                 = true).
  { apply allChars_substring0, allChars_replaceRuns; try reflexivity.
    apply allChars_replaceClass; [reflexivity|]. intros c Hc. now rewrite Hc. }
  assert (Hlen : (String.length cut <= 100)%nat) by apply length_substring0.
  destruct (orElse_cases cut "video") as [[Hne ->] | [_ ->]].
  - auto.
  - repeat split; [discriminate | simpl; lia].
Qed.

(** X5.  The file name [src/unnamed/part_000] derives from a title is never
    empty, has at most 50 characters, and consists of the letters and digits
    of ASCII and of underscores. *)
Theorem part000_safeFilename_safe (title : string) :
  Part000.safeFilename title <> ""
  /\ (String.length (Part000.safeFilename title) <= 50)%nat
  /\ allChars (fun c => Part000.alnum c || Ascii.eqb c "_") (Part000.safeFilename title)
     = true.
Proof.
  unfold Part000.safeFilename.
  set (cut := substring0 50
                (replaceClass (fun c => negb (Part000.alnum c)) "_" title)).
  assert (Hcut : allChars (fun c => Part000.alnum c || Ascii.eqb c "_") cut = true).
  { apply allChars_substring0, allChars_replaceClass; [reflexivity|].
    intros c Hc. apply negb_false_iff in Hc. now rewrite Hc. }
  assert (Hlen : (String.length cut <= 50)%nat) by apply length_substring0.
  destruct (orElse_cases cut "video") as [[Hne ->] | [_ ->]].
  - auto.
  - repeat split; [discriminate | simpl; lia].
Qed.

End FilenameProperties.

(* ===================================================================== *)
(** ** What the handlers answer                                           *)
(* ===================================================================== *)

Section HandlerProperties.
Import JS.





Lemma api_select_some (fs : list Format) (f : Format) :
  Api.selectFormat fs = Some f -> In f fs /\ hasVideo f = true.
Proof.
  unfold Api.selectFormat, filterFormats_videoandaudio.
  destruct (List.filter (fun format => hasVideo format && hasAudio format) fs)
    as [|x xs] eqn:E.
  - destruct (List.filter (fun format => hasVideo format) fs) as [|y ys] eqn:E2;
      [discriminate|].
    intros [= <-].
    assert (H : In y (List.filter (fun format => hasVideo format) fs))
      by (rewrite E2; now left).
    now apply List.filter_In in H.
  - intros [= <-].
    assert (H : In x (List.filter (fun format => hasVideo format && hasAudio format) fs))
      by (rewrite E; now left).
    apply List.filter_In in H as [Hin Hx]. apply andb_true_iff in Hx. tauto.
Qed.

Lemma part000_select_some (fs : list Format) (f : Format) :
  Part000.selectFormat fs = Some f -> In f fs /\ Part000.isMp4VideoAndAudio f = true.
Proof.
  intros H.
  destruct (List.filter Part000.isMp4VideoAndAudio fs) as [|x xs] eqn:E.
  - unfold Part000.selectFormat in H. rewrite E in H. discriminate.
  - assert (Hx : In x (List.filter Part000.isMp4VideoAndAudio fs))
      by (rewrite E; now left).
    apply List.filter_In in Hx as [Hin Hx].
    destruct (part000_select_firstMin fs x Hin Hx) as (g & Hg & Hmin).
    rewrite H in Hg. injection Hg as <-.
    split; [now apply firstMinAmong_In in Hmin | apply Hmin].
Qed.

Lemma statusJson_isErrorAnswer (code : Z) (payload : gmap string string)
    (message : string) (r : Response) :
  body r = [] ->
  In code [400; 403; 405; 500] -> payload !! "error" = Some message ->
  isErrorAnswer (Res.statusJson code payload r).
Proof.
  intros Hb Hc Hp. unfold isErrorAnswer. cbn [statusCode json headersSent ended body
    Res.statusJson]. repeat split; eauto.
Qed.

Lemma api_catchError_isErrorAnswer (message : string) (r : Response) :
  body r = [] -> isErrorAnswer (Api.catchError message r).
Proof.
  intros Hb. unfold Api.catchError.
  destruct (includes message "private" || includes message "unavailable");
    [eapply statusJson_isErrorAnswer; [exact Hb | simpl; tauto | by simplify_map_eq]|].
  destruct (includes message "cookies" || includes message "authentication");
    [eapply statusJson_isErrorAnswer; [exact Hb | simpl; tauto | by simplify_map_eq]|].
  destruct (includes message "format");
    eapply statusJson_isErrorAnswer;
      [exact Hb | simpl; tauto | by simplify_map_eq
      | exact Hb | simpl; tauto | by simplify_map_eq].
Qed.

Lemma part000_catchError_isErrorAnswer (message : string) (r : Response) :
  body r = [] -> isErrorAnswer (Part000.catchError message r).
Proof.
  intros Hb. unfold Part000.catchError.
  destruct (includes message "private" || includes message "unavailable");
    [eapply statusJson_isErrorAnswer; [exact Hb | simpl; tauto | by simplify_map_eq]|].
  destruct (includes message "cookies");
    eapply statusJson_isErrorAnswer;
      [exact Hb | simpl; tauto | by simplify_map_eq
      | exact Hb | simpl; tauto | by simplify_map_eq].
Qed.

Lemma api_downloadHeaders_ready (title : string) (f : Format) :
  isReadyToStream (apiDownloadHeaders title f Res.fresh).
Proof.
  unfold apiDownloadHeaders, isReadyToStream.
  destruct (contentLength f) as [len|]; [destruct (truthy len)|];
    cbn [statusCode json headersSent ended body headers Res.setHeader Res.fresh];
    repeat split; try (by simplify_map_eq); eexists; by simplify_map_eq.
Qed.

Lemma part000_downloadHeaders_ready (title : string) (f : Format) :
  isReadyToStream (part000DownloadHeaders title f Res.fresh).
Proof.
  unfold part000DownloadHeaders, isReadyToStream.
  cbn [statusCode json headersSent ended body headers Res.setHeader Res.fresh].
  repeat split; try (by simplify_map_eq); eexists; by simplify_map_eq.
Qed.

Lemma api_handler_outcome (ytdl : Ytdl) (file : CookieFile) (req : Request) :
  (videoStream (Api.handler ytdl file req) = None
   /\ isErrorAnswer (res (Api.handler ytdl file req)))
  \/ (exists vs, videoStream (Api.handler ytdl file req) = Some vs
                 /\ vs_state vs = Flowing /\ hasVideo (vs_format vs) = true
                 /\ isReadyToStream (res (Api.handler ytdl file req))).
Proof.
  unfold Api.handler, Api.tryBlock.
  destruct (negb (String.eqb (method req) "GET"));
    [left; split; [reflexivity|];
     eapply statusJson_isErrorAnswer; [reflexivity | simpl; tauto | by simplify_map_eq]|].
  destruct (query_url req) as [url|];
    [|left; split; [reflexivity|];
      eapply statusJson_isErrorAnswer; [reflexivity | simpl; tauto | by simplify_map_eq]].
  destruct (negb (truthy url));
    [left; split; [reflexivity|];
     eapply statusJson_isErrorAnswer; [reflexivity | simpl; tauto | by simplify_map_eq]|].
  destruct (negb (validateURL ytdl url));
    [left; split; [reflexivity|];
     eapply statusJson_isErrorAnswer; [reflexivity | simpl; tauto | by simplify_map_eq]|].
  rewrite api_loadCookies_eq. cbn [attempt]. rewrite bind_Done.
  destruct (getInfo ytdl url _) as [info|message]; cbn [attempt].
  - rewrite bind_Done.
    destruct (Api.selectFormat (formats info)) as [f|] eqn:E.
    + destruct (api_setDownloadHeaders_cases (title info) f Res.fresh)
        as [-> | (m & r' & -> & _ & _ & Hb & _)].
      * right. rewrite bind_Done. eexists. split; [reflexivity|]. split; [reflexivity|].
        split; [|apply api_downloadHeaders_ready].
        apply (api_select_some _ _ E).
      * left. rewrite bind_Raised. split; [reflexivity|].
        now apply api_catchError_isErrorAnswer.
    + left. split; [reflexivity|].
      eapply statusJson_isErrorAnswer; [reflexivity | simpl; tauto | by simplify_map_eq].
  - rewrite bind_Raised. left.
    split; [reflexivity | now apply api_catchError_isErrorAnswer].
Qed.

Lemma part000_handler_outcome (ytdl : Ytdl) (file : CookieFile) (req : Request) :
  (videoStream (Part000.handler ytdl file req) = None
   /\ isErrorAnswer (res (Part000.handler ytdl file req)))
  \/ (exists vs, videoStream (Part000.handler ytdl file req) = Some vs
                 /\ vs_state vs = Flowing /\ hasVideo (vs_format vs) = true
                 /\ isReadyToStream (res (Part000.handler ytdl file req))).
Proof.
  unfold Part000.handler, Part000.tryBlock.
  destruct (negb (String.eqb (method req) "GET"));
    [left; split; [reflexivity|];
     eapply statusJson_isErrorAnswer; [reflexivity | simpl; tauto | by simplify_map_eq]|].
  destruct (query_url req) as [url|];
    [|left; split; [reflexivity|];
      eapply statusJson_isErrorAnswer; [reflexivity | simpl; tauto | by simplify_map_eq]].
  destruct (negb (truthy url));
    [left; split; [reflexivity|];
     eapply statusJson_isErrorAnswer; [reflexivity | simpl; tauto | by simplify_map_eq]|].
  destruct (negb (validateURL ytdl url));
    [left; split; [reflexivity|];
     eapply statusJson_isErrorAnswer; [reflexivity | simpl; tauto | by simplify_map_eq]|].
  rewrite part000_loadCookies_eq. cbn [attempt]. rewrite bind_Done.
  destruct (getInfo ytdl url _) as [info|message]; cbn [attempt].
  - rewrite bind_Done.
    destruct (Part000.selectFormat (formats info)) as [f|] eqn:E.
    + destruct (part000_setDownloadHeaders_cases (title info) f Res.fresh)
        as [-> | (m & r' & -> & _ & _ & Hb & _)].
      * right. rewrite bind_Done. eexists. split; [reflexivity|]. split; [reflexivity|].
        split; [|apply part000_downloadHeaders_ready].
        destruct (part000_select_some _ _ E) as [_ Hf].
        unfold Part000.isMp4VideoAndAudio in Hf.
        apply andb_true_iff in Hf as [Hf _]. now apply andb_true_iff in Hf as [_ Hf].
      * left. rewrite bind_Raised. split; [reflexivity|].
        now apply part000_catchError_isErrorAnswer.
    + left. split; [reflexivity|].
      eapply statusJson_isErrorAnswer; [reflexivity | simpl; tauto | by simplify_map_eq].
  - rewrite bind_Raised. left.
    split; [reflexivity | now apply part000_catchError_isErrorAnswer].
Qed.

(** X7.  Whatever the request, the cookie file and the resolver, a handler
    returns in one of two ways.  Either it has opened no stream and has sent
    one JSON error: status 400, 403, 405 or 500, a payload with an [error]
    field, the response ended and no body.  Or it has opened a stream that
    flows, of a format with a video component, and the response is ready for
    the body: status 200, content type and disposition set, nothing sent. *)
Theorem handler_answers_or_streams (ytdl : Ytdl) (file : CookieFile) (req : Request) :
  ((videoStream (Api.handler ytdl file req) = None
    /\ isErrorAnswer (res (Api.handler ytdl file req)))
   \/ (exists vs, videoStream (Api.handler ytdl file req) = Some vs
                  /\ vs_state vs = Flowing /\ hasVideo (vs_format vs) = true
                  /\ isReadyToStream (res (Api.handler ytdl file req))))
  /\ ((videoStream (Part000.handler ytdl file req) = None
       /\ isErrorAnswer (res (Part000.handler ytdl file req)))
      \/ (exists vs, videoStream (Part000.handler ytdl file req) = Some vs
                     /\ vs_state vs = Flowing /\ hasVideo (vs_format vs) = true
                     /\ isReadyToStream (res (Part000.handler ytdl file req)))).
Proof. split; [apply api_handler_outcome | apply part000_handler_outcome]. Qed.

End HandlerProperties.

Section RejectionProperties.
Import JS.

(** X8.  A request that is no [GET], or has no [url], or has one the resolver
    does not accept, is answered with 405 or 400 before anything else is
    looked at: the answer is the same whatever the cookie file holds and
    whatever [ytdl.getInfo] would resolve to, and no stream is opened. *)
Theorem early_rejection_reads_nothing (ytdl : Ytdl) (req : Request)
    (file file' : CookieFile)
    (getInfo' : string -> RequestOptions -> Completion Info) :
  rejectedEarly ytdl req = true ->
  (Api.handler (mkYtdl (validateURL ytdl) getInfo') file' req = Api.handler ytdl file req
   /\ videoStream (Api.handler ytdl file req) = None
   /\ statusCode (res (Api.handler ytdl file req))
      = if String.eqb (method req) "GET" then 400 else 405)
  /\ (Part000.handler (mkYtdl (validateURL ytdl) getInfo') file' req
      = Part000.handler ytdl file req
      /\ videoStream (Part000.handler ytdl file req) = None
      /\ statusCode (res (Part000.handler ytdl file req))
         = if String.eqb (method req) "GET" then 400 else 405).
Proof.
  unfold rejectedEarly, Api.handler, Api.tryBlock, Part000.handler, Part000.tryBlock.
  cbn [validateURL getInfo].
  destruct (String.eqb (method req) "GET"); cbn [negb orb]; [|repeat split].
  destruct (query_url req) as [url|]; [|repeat split].
  destruct (truthy url); cbn [negb orb]; [|repeat split].
  destruct (validateURL ytdl url); cbn [negb]; [discriminate | repeat split].
Qed.

Lemma early_rejection_reads_nothing_witness :
  statusCode
    (res (Api.handler (Sample.resolving [Sample.mp4_360]) Absent
            (mkRequest "POST" (Some "https://youtu.be/x")))) = 405
  /\ statusCode
       (res (Part000.handler (Sample.resolving [Sample.mp4_360]) Absent
               (mkRequest "GET" None))) = 400.
Proof.
  split.
  - destruct (early_rejection_reads_nothing (Sample.resolving [Sample.mp4_360])
                (mkRequest "POST" (Some "https://youtu.be/x")) Absent Absent
                (fun _ _ => Throw "none")) as [(_ & _ & H) _]; [reflexivity|].
    rewrite H. reflexivity.
  - destruct (early_rejection_reads_nothing (Sample.resolving [Sample.mp4_360])
                (mkRequest "GET" None) Absent Absent
                (fun _ _ => Throw "none")) as [_ (_ & _ & H)]; [reflexivity|].
    rewrite H. reflexivity.
Defined.

End RejectionProperties.

(* ===================================================================== *)
(** ** The relay after the handler has returned                           *)
(* ===================================================================== *)

Section RelayProperties.
Import JS.

Lemma relayInvariant_error (c : Conn) :
  videoStream c = None -> isErrorAnswer (res c) -> relayInvariant c.
Proof.
  intros Hv (_ & _ & _ & _ & Hb). unfold relayInvariant, relayState. rewrite Hv, Hb.
  repeat split; congruence.
Qed.

Lemma relayInvariant_ready (c : Conn) (vs : VideoStream) :
  videoStream c = Some vs -> vs_state vs = Flowing -> isReadyToStream (res c) ->
  relayInvariant c.
Proof.
  intros Hv Hf (Hs & Hj & _ & _ & Hb & _). unfold relayInvariant, relayState.
  rewrite Hv, Hf, Hj, Hb, Hs. repeat split; congruence.
Qed.

Lemma api_step_invariant (c : Conn) (e : Event) :
  relayInvariant c -> relayInvariant (Api.step c e).
Proof.
  intros Hinv. pose proof Hinv as (H1 & H2 & H3).
  unfold Api.step, Api.onStreamError.
  destruct (videoStream c) as [vs|] eqn:Hv; [|exact Hinv].
  destruct (vs_state vs) eqn:Hf; try exact Hinv;
    unfold relayState in H1, H3; rewrite Hv, Hf in H1, H3;
    assert (Hj : json (res c) = None)
      by (destruct (json (res c)); [destruct H1 as [_ H1]; discriminate | reflexivity]);
    assert (Hs : statusCode (res c) = 200) by (apply H3; discriminate);
    assert (Hb : headersSent (res c) = false -> body (res c) = [])
      by (intros Hh; destruct (body (res c)) eqn:Eb;
          [reflexivity | destruct H2 as [H2 _]; congruence]);
    destruct e; try exact Hinv;
    try destruct (headersSent (res c)) eqn:Hh; try destruct (reqClosed c);
    unfold relayInvariant, relayState;
    cbn [res videoStream vs_state negb Res.write Res.end_ Res.statusJson json body
         headersSent statusCode];
    rewrite ?Hj, ?(Hb eq_refl);
    repeat split; intros; try congruence; try (now apply H2);
    try (now destruct (body (res c))).
Qed.

Lemma part000_step_invariant (c : Conn) (e : Event) :
  relayInvariant c -> relayInvariant (Part000.step c e).
Proof.
  intros Hinv. pose proof Hinv as (H1 & H2 & H3).
  unfold Part000.step, Part000.onStreamError.
  destruct (videoStream c) as [vs|] eqn:Hv; [|exact Hinv].
  destruct (vs_state vs) eqn:Hf; try exact Hinv;
    unfold relayState in H1, H3; rewrite Hv, Hf in H1, H3;
    assert (Hj : json (res c) = None)
      by (destruct (json (res c)); [destruct H1 as [_ H1]; discriminate | reflexivity]);
    assert (Hs : statusCode (res c) = 200) by (apply H3; discriminate);
    assert (Hb : headersSent (res c) = false -> body (res c) = [])
      by (intros Hh; destruct (body (res c)) eqn:Eb;
          [reflexivity | destruct H2 as [H2 _]; congruence]);
    destruct e; try exact Hinv;
    try destruct (headersSent (res c)) eqn:Hh; try destruct (reqClosed c);
    unfold relayInvariant, relayState;
    cbn [res videoStream vs_state negb Res.write Res.end_ Res.statusJson json body
         headersSent statusCode];
    rewrite ?Hj, ?(Hb eq_refl);
    repeat split; intros; try congruence; try (now apply H2);
    try (now destruct (body (res c))).
Qed.

Lemma api_run_invariant (c : Conn) (events : list Event) :
  relayInvariant c -> relayInvariant (Api.run c events).
Proof.
  unfold Api.run. revert c. induction events as [|e events IH]; intros c Hc; [exact Hc|].
  apply IH. now apply api_step_invariant.
Qed.

Lemma part000_run_invariant (c : Conn) (events : list Event) :
  relayInvariant c -> relayInvariant (Part000.run c events).
Proof.
  unfold Part000.run. revert c.
  induction events as [|e events IH]; intros c Hc; [exact Hc|].
  apply IH. now apply part000_step_invariant.
Qed.

(** X9.  From the moment a handler returns and through every sequence of
    events, an error payload and video bytes never share a response: a
    response with a payload has an empty body and its relay has failed, and a
    response with body bytes has status 200 and carries no payload. *)
Theorem payload_and_body_exclude (ytdl : Ytdl) (file : CookieFile) (req : Request)
    (events : list Event) :
  relayInvariant (Api.run (Api.handler ytdl file req) events)
  /\ relayInvariant (Part000.run (Part000.handler ytdl file req) events).
Proof.
  split.
  - apply api_run_invariant.
    destruct (api_handler_outcome ytdl file req) as [[Hv He] | (vs & Hv & Hf & _ & Hr)].
    + now apply relayInvariant_error.
    + now apply (relayInvariant_ready _ vs).
  - apply part000_run_invariant.
    destruct (part000_handler_outcome ytdl file req) as [[Hv He] | (vs & Hv & Hf & _ & Hr)].
    + now apply relayInvariant_error.
    + now apply (relayInvariant_ready _ vs).
Qed.

Lemma run_app_api (c : Conn) (a b : list Event) :
  Api.run c (a ++ b) = Api.run (Api.run c a) b.
Proof. unfold Api.run. apply fold_left_app. Qed.

Lemma run_app_part000 (c : Conn) (a b : list Event) :
  Part000.run c (a ++ b) = Part000.run (Part000.run c a) b.
Proof. unfold Part000.run. apply fold_left_app. Qed.

Lemma api_step_data (c : Conn) (x : string) :
  relayState c = StreamingBody ->
  relayState (Api.step c (Data x)) = StreamingBody
  /\ res (Api.step c (Data x)) = Res.write x (res c).
Proof.
  intros Hs. destruct (streaming_inv c Hs) as (vs & Hv & Hf).
  unfold Api.step, relayState. now rewrite Hv, Hf.
Qed.

Lemma api_run_data (c : Conn) (chunks : list string) :
  relayState c = StreamingBody ->
  relayState (Api.run c (map Data chunks)) = StreamingBody
  /\ body (res (Api.run c (map Data chunks))) = body (res c) ++ chunks
  /\ json (res (Api.run c (map Data chunks))) = json (res c)
  /\ ended (res (Api.run c (map Data chunks))) = ended (res c).
Proof.
  revert c. induction chunks as [|x chunks IH]; intros c Hs.
  - simpl. now rewrite app_nil_r.
  - destruct (api_step_data c x Hs) as [Hs' Hr].
    change (Api.run c (map Data (x :: chunks)))
      with (Api.run (Api.step c (Data x)) (map Data chunks)).
    destruct (IH _ Hs') as (I1 & I2 & I3 & I4).
    rewrite I1, I2, I3, I4, Hr. simpl. now rewrite <- app_assoc.
Qed.

Lemma part000_step_data (c : Conn) (x : string) :
  relayState c = StreamingBody ->
  relayState (Part000.step c (Data x)) = StreamingBody
  /\ res (Part000.step c (Data x)) = Res.write x (res c).
Proof.
  intros Hs. destruct (streaming_inv c Hs) as (vs & Hv & Hf).
  unfold Part000.step, relayState. now rewrite Hv, Hf.
Qed.

Lemma part000_run_data (c : Conn) (chunks : list string) :
  relayState c = StreamingBody ->
  relayState (Part000.run c (map Data chunks)) = StreamingBody
  /\ body (res (Part000.run c (map Data chunks))) = body (res c) ++ chunks
  /\ json (res (Part000.run c (map Data chunks))) = json (res c)
  /\ ended (res (Part000.run c (map Data chunks))) = ended (res c).
Proof.
  revert c. induction chunks as [|x chunks IH]; intros c Hs.
  - simpl. now rewrite app_nil_r.
  - destruct (part000_step_data c x Hs) as [Hs' Hr].
    change (Part000.run c (map Data (x :: chunks)))
      with (Part000.run (Part000.step c (Data x)) (map Data chunks)).
    destruct (IH _ Hs') as (I1 & I2 & I3 & I4).
    rewrite I1, I2, I3, I4, Hr. simpl. now rewrite <- app_assoc.
Qed.

(** X10.  While the stream flows, the chunks it delivers are appended to the
    body of the response in the order of their arrival, none dropped and none
    repeated; when the stream then ends, the response is ended with exactly
    these chunks and without a payload, the relay is completed, and events
    that come later change nothing. *)
Theorem relay_in_order (c : Conn) (chunks : list string) (later : list Event) :
  relayState c = StreamingBody ->
  (let c' := Api.run c (map Data chunks ++ StreamEnd :: later) in
   body (res c') = body (res c) ++ chunks /\ ended (res c') = true
   /\ json (res c') = json (res c) /\ relayState c' = Completed)
  /\ (let c' := Part000.run c (map Data chunks ++ StreamEnd :: later) in
      body (res c') = body (res c) ++ chunks /\ ended (res c') = true
      /\ json (res c') = json (res c) /\ relayState c' = Completed).
Proof.
  intros Hs. split.
  - rewrite run_app_api.
    destruct (api_run_data c chunks Hs) as (I1 & I2 & I3 & I4).
    destruct (streaming_inv _ I1) as (vs & Hv & Hf).
    change (Api.run (Api.run c (map Data chunks)) (StreamEnd :: later))
      with (Api.run (Api.step (Api.run c (map Data chunks)) StreamEnd) later).
    rewrite api_run_settled; unfold Api.step, settled; rewrite Hv, Hf;
      [|reflexivity].
    cbn [res Res.end_ body ended json]. rewrite I2, I3. now repeat split.
  - rewrite run_app_part000.
    destruct (part000_run_data c chunks Hs) as (I1 & I2 & I3 & I4).
    destruct (streaming_inv _ I1) as (vs & Hv & Hf).
    change (Part000.run (Part000.run c (map Data chunks)) (StreamEnd :: later))
      with (Part000.run (Part000.step (Part000.run c (map Data chunks)) StreamEnd) later).
    rewrite part000_run_settled; unfold Part000.step, settled; rewrite Hv, Hf;
      [|reflexivity].
    cbn [res Res.end_ body ended json]. rewrite I2, I3. now repeat split.
Qed.

Lemma relay_in_order_witness :
  body (res (Api.run (Api.handler (Sample.resolving [Sample.mp4_360]) Absent Sample.get)
               (map Data ["a"; "b"; "c"] ++ StreamEnd :: [Data "late"; ReqClose])))
  = ["a"; "b"; "c"].
Proof.
  destruct (relay_in_order
              (Api.handler (Sample.resolving [Sample.mp4_360]) Absent Sample.get)
              ["a"; "b"; "c"] [Data "late"; ReqClose]) as [(H & _) _]; [reflexivity|].
  rewrite H. reflexivity.
Defined.

End RelayProperties.

(* ===================================================================== *)
(** ** More on the selection                                              *)
(* ===================================================================== *)

Section SelectionProperties.

Lemma part000_insertSorted_perm {A : Type} (compare : A -> A -> Z) (x : A) (l : list A) :
  Permutation (Part000.insertSorted compare x l) (x :: l).
Proof.
  induction l as [|y l IH]; simpl; [reflexivity|].
  destruct (compare x y <=? 0); [reflexivity|].
  rewrite IH. apply perm_swap.
Qed.

Lemma part000_sort_perm {A : Type} (compare : A -> A -> Z) (l : list A) :
  Permutation (Part000.sort compare l) l.
Proof.
  induction l as [|x l IH]; simpl; [reflexivity|].
  rewrite part000_insertSorted_perm. now constructor.
Qed.

Lemma part000_insertSorted_sorted {A : Type} (compare : A -> A -> Z) (key : A -> Z)
    (x : A) (l : list A) :
  (forall a b, compare a b = key a - key b) ->
  StronglySorted (fun a b => key a <= key b) l ->
  StronglySorted (fun a b => key a <= key b) (Part000.insertSorted compare x l).
Proof.
  intros Hcmp. induction 1 as [|y l Hs IH Hy]; simpl.
  - constructor; constructor.
  - rewrite Hcmp. destruct (key x - key y <=? 0) eqn:E.
    + apply Z.leb_le in E. constructor; [now constructor|].
      constructor; [lia|].
      apply List.Forall_forall. intros z Hz.
      assert (key y <= key z) by (exact (proj1 (List.Forall_forall _ _) Hy z Hz)). lia.
    + apply Z.leb_gt in E. constructor; [exact IH|].
      apply (Permutation_Forall (Permutation_sym (part000_insertSorted_perm compare x l))).
      constructor; [lia | exact Hy].
Qed.

(** X11.  The array [src/unnamed/part_000] sorts holds the same formats after
    the sort as before, none lost and none added, arranged by height from
    the lowest up. *)
Theorem part000_sortedFormats_sorted (fs : list Format) :
  Permutation (Part000.sort Part000.compareHeight fs) fs
  /\ StronglySorted (fun a b => Part000.getHeight a <= Part000.getHeight b)
       (Part000.sort Part000.compareHeight fs).
Proof.
  split; [apply part000_sort_perm|].
  induction fs as [|x fs IH]; simpl; [constructor|].
  now apply (part000_insertSorted_sorted _ Part000.getHeight).
Qed.

Lemma part000_select_is_some (fs : list Format) (g : Format) :
  In g fs -> Part000.isMp4VideoAndAudio g = true ->
  exists f, Part000.selectFormat fs = Some f
    /\ Part000.isMp4VideoAndAudio f = true /\ In f fs
    /\ forall h, In h fs -> Part000.isMp4VideoAndAudio h = true ->
                 Part000.getHeight f <= Part000.getHeight h.
Proof.
  intros Hin Hg. destruct (part000_select_firstMin fs g Hin Hg) as (f & Hsel & Hmin).
  exists f. split; [exact Hsel|]. split; [apply Hmin|]. now apply firstMinAmong_In in Hmin.
Qed.

(** X12.  The height of the format [src/unnamed/part_000] selects does not
    depend on the order of [info.formats], and whether one is selected does
    not either; where no two candidates have the same height, the selected
    format itself does not depend on the order. *)
Theorem part000_selection_order_independent (fs fs' : list Format) :
  Permutation fs fs' ->
  option_map Part000.getHeight (Part000.selectFormat fs)
  = option_map Part000.getHeight (Part000.selectFormat fs')
  /\ ((forall a b, In a fs -> In b fs ->
         Part000.isMp4VideoAndAudio a = true -> Part000.isMp4VideoAndAudio b = true ->
         Part000.getHeight a = Part000.getHeight b -> a = b) ->
      Part000.selectFormat fs = Part000.selectFormat fs').
Proof.
  intros Hperm.
  assert (Hcases :
    (Part000.selectFormat fs = None /\ Part000.selectFormat fs' = None)
    \/ exists f f', Part000.selectFormat fs = Some f /\ Part000.selectFormat fs' = Some f'
         /\ In f fs /\ In f' fs
         /\ Part000.isMp4VideoAndAudio f = true /\ Part000.isMp4VideoAndAudio f' = true
         /\ Part000.getHeight f = Part000.getHeight f').
  { destruct (Part000.selectFormat fs) as [f|] eqn:E.
    - right. destruct (part000_select_some _ _ E) as [Hin Hp].
      destruct (part000_select_is_some fs f Hin Hp) as (f0 & E0 & _ & _ & Hmin).
      rewrite E in E0. injection E0 as <-.
      destruct (part000_select_is_some fs' f (Permutation_in _ Hperm Hin) Hp)
        as (f' & E' & Hp' & Hin' & Hmin').
      exists f, f'. repeat split; auto.
      + apply (Permutation_in _ (Permutation_sym Hperm) Hin').
      + assert (Part000.getHeight f <= Part000.getHeight f')
          by (apply Hmin; [apply (Permutation_in _ (Permutation_sym Hperm) Hin') | exact Hp']).
        assert (Part000.getHeight f' <= Part000.getHeight f)
          by (apply Hmin'; [apply (Permutation_in _ Hperm Hin) | exact Hp]).
        lia.
    - left. split; [reflexivity|].
      destruct (Part000.selectFormat fs') as [f'|] eqn:E'; [|reflexivity].
      destruct (part000_select_some _ _ E') as [Hin' Hp'].
      destruct (part000_select_is_some fs f'
                  (Permutation_in _ (Permutation_sym Hperm) Hin') Hp') as (f0 & E0 & _).
      congruence. }
  destruct Hcases as [[-> ->] | (f & f' & -> & -> & Hin & Hin' & Hp & Hp' & Hh)].
  - split; [reflexivity | intros _; reflexivity].
  - split; [simpl; now rewrite Hh|]. intros Hinj. f_equal. now apply Hinj.
Qed.

Lemma part000_selection_order_independent_witness :
  Part000.selectFormat [Sample.mp4_720; Sample.webm_144; Sample.mp4_360]
  = Part000.selectFormat [Sample.mp4_360; Sample.mp4_720; Sample.webm_144].
Proof.
  destruct (part000_selection_order_independent
              [Sample.mp4_720; Sample.webm_144; Sample.mp4_360]
              [Sample.mp4_360; Sample.mp4_720; Sample.webm_144]) as [_ H].
  - apply Permutation_sym.
    apply (Permutation_cons_append [Sample.mp4_720; Sample.webm_144] Sample.mp4_360).
  - apply H. intros a b Ha Hb Hpa Hpb Hh.
    destruct Ha as [<- | [<- | [<- | []]]]; destruct Hb as [<- | [<- | [<- | []]]];
      try reflexivity; try discriminate.
Defined.

(** X13.  [src/api/download.js] selects a format exactly when some format has
    a video component; the selected format is one of [info.formats] and has a
    video component, and it lacks the audio component only where no format
    has both.  [src/unnamed/part_000] selects a format exactly when some
    format is an mp4 with both components, and the selected format is one of
    these. *)
Theorem selection_exactly_when (fs : list Format) :
  (Api.selectFormat fs = None <-> forall g, In g fs -> hasVideo g = false)
  /\ (forall f, Api.selectFormat fs = Some f ->
        In f fs /\ hasVideo f = true
        /\ (hasAudio f = false -> forall g, In g fs -> combined g = false))
  /\ (Part000.selectFormat fs = None
      <-> forall g, In g fs -> Part000.isMp4VideoAndAudio g = false)
  /\ (forall f, Part000.selectFormat fs = Some f ->
        In f fs /\ Part000.isMp4VideoAndAudio f = true).
Proof.
  split; [|split; [|split]].
  - split; [|apply api_select_none].
    intros Hnone g Hg. destruct (hasVideo g) eqn:Hv; [|reflexivity].
    exfalso. destruct (combined g) eqn:Hc.
    + destruct (api_select_combined fs g Hg Hc) as (f & Hf & _). congruence.
    + destruct (List.filter (fun format => hasVideo format) fs) as [|y ys] eqn:E.
      * assert (H : In g (List.filter (fun format => hasVideo format) fs))
          by (apply List.filter_In; auto).
        rewrite E in H. destruct H.
      * unfold Api.selectFormat in Hnone. rewrite E in Hnone.
        destruct (filterFormats_videoandaudio fs); discriminate.
  - intros f Hf. destruct (api_select_some _ _ Hf) as [Hin Hv].
    split; [exact Hin|]. split; [exact Hv|].
    intros Ha g Hg. destruct (combined g) eqn:Hc; [|reflexivity].
    destruct (api_select_combined fs g Hg Hc) as (f' & Hf' & _ & Hc').
    rewrite Hf in Hf'. injection Hf' as <-.
    unfold combined in Hc'. rewrite Ha, andb_false_r in Hc'. discriminate.
  - split; [|apply part000_select_none].
    intros Hnone g Hg. destruct (Part000.isMp4VideoAndAudio g) eqn:Hp; [|reflexivity].
    destruct (part000_select_is_some fs g Hg Hp) as (f & Hf & _). congruence.
  - intros f Hf. now apply part000_select_some.
Qed.

Lemma selection_exactly_when_witness :
  Api.selectFormat [Sample.audio_only] = None
  /\ In Sample.video_only [Sample.audio_only; Sample.video_only]
  /\ Part000.selectFormat [Sample.webm_144; Sample.video_only] = None.
Proof.
  destruct (selection_exactly_when [Sample.audio_only]) as (HA & _).
  destruct (selection_exactly_when [Sample.audio_only; Sample.video_only])
    as (_ & HS & _).
  destruct (selection_exactly_when [Sample.webm_144; Sample.video_only])
    as (_ & _ & HP & _).
  split; [|split].
  - apply HA. intros g [<- | []]. reflexivity.
  - apply (HS Sample.video_only). reflexivity.
  - apply HP. intros g [<- | [<- | []]]; reflexivity.
Defined.

End SelectionProperties.

(* ===================================================================== *)
(** ** More on the error answers                                          *)
(* ===================================================================== *)

Section ErrorProperties.
Import JS.

Lemma substring0_prefix (n : nat) (s : string) :
  exists rest, s = substring0 n s +:+ rest
    /\ String.length (substring0 n s) = Nat.min n (String.length s).
Proof.
  unfold substring0. revert s. induction n as [|n IH]; intros s.
  - exists s. destruct s; split; reflexivity.
  - destruct s as [|c s]; [exists ""; split; reflexivity|].
    destruct (IH s) as (rest & Hr & Hl). exists rest. simpl. split.
    + rewrite append_cons. now rewrite <- Hr.
    + now rewrite Hl.
Qed.

Lemma api_error_details (message : string) (r : Response) :
  (statusCode (Api.catchError message r) = 403 ->
     json (Api.catchError message r) ≫= (fun payload => payload !! "details") = None)
  /\ (statusCode (Api.catchError message r) = 400 ->
        json (Api.catchError message r) ≫= (fun payload => payload !! "details")
        = Some message)
  /\ (statusCode (Api.catchError message r) = 500 ->
        exists shown rest,
          json (Api.catchError message r) ≫= (fun payload => payload !! "details")
          = Some shown
          /\ message = shown +:+ rest
          /\ String.length shown = Nat.min 100 (String.length message))
  /\ In (statusCode (Api.catchError message r)) [400; 403; 500].
Proof.
  unfold Api.catchError.
  destruct (includes message "private" || includes message "unavailable");
    [cbn [Res.statusJson statusCode json mbind option_bind];
     repeat split; try discriminate; try (by simplify_map_eq); simpl; tauto|].
  destruct (includes message "cookies" || includes message "authentication");
    [cbn [Res.statusJson statusCode json mbind option_bind];
     repeat split; try discriminate; try (by simplify_map_eq); simpl; tauto|].
  destruct (includes message "format");
    cbn [Res.statusJson statusCode json mbind option_bind].
  - repeat split; try discriminate; try (by simplify_map_eq); simpl; tauto.
  - split; [discriminate|]. split; [discriminate|]. split; [|simpl; tauto].
    intros _. destruct (substring0_prefix 100 message) as (rest & Hr & Hl).
    exists (substring0 100 message), rest.
    split; [by simplify_map_eq | auto].
Qed.

Lemma part000_error_details (message : string) (r : Response) :
  (statusCode (Part000.catchError message r) = 403 ->
     json (Part000.catchError message r) ≫= (fun payload => payload !! "details") = None)
  /\ (statusCode (Part000.catchError message r) = 500 ->
        json (Part000.catchError message r) ≫= (fun payload => payload !! "details")
        = Some message)
  /\ In (statusCode (Part000.catchError message r)) [403; 500].
Proof.
  unfold Part000.catchError.
  destruct (includes message "private" || includes message "unavailable");
    [cbn [Res.statusJson statusCode json mbind option_bind];
     repeat split; try discriminate; try (by simplify_map_eq); simpl; tauto|].
  destruct (includes message "cookies");
    cbn [Res.statusJson statusCode json mbind option_bind];
    repeat split; try discriminate; try (by simplify_map_eq); simpl; tauto.
Qed.

(** X14.  Which answers to a caught error carry text of its message.  In
    [src/api/download.js] a 403 carries none, the 400 for a format carries the
    whole message, and the 500 carries the beginning of the message, all of it
    up to 100 characters and never more.  In [src/unnamed/part_000] a 403
    carries none and the 500 carries the whole message. *)
Theorem error_details_carried (message : string) (r : Response) :
  let details (r' : Response) := json r' ≫= fun payload => payload !! "details" in
  (statusCode (Api.catchError message r) = 403 -> details (Api.catchError message r) = None)
  /\ (statusCode (Api.catchError message r) = 400 ->
        details (Api.catchError message r) = Some message)
  /\ (statusCode (Api.catchError message r) = 500 ->
        exists shown rest,
          details (Api.catchError message r) = Some shown
          /\ message = shown +:+ rest
          /\ String.length shown = Nat.min 100 (String.length message))
  /\ In (statusCode (Api.catchError message r)) [400; 403; 500]
  /\ (statusCode (Part000.catchError message r) = 403 ->
        details (Part000.catchError message r) = None)
  /\ (statusCode (Part000.catchError message r) = 500 ->
        details (Part000.catchError message r) = Some message)
  /\ In (statusCode (Part000.catchError message r)) [403; 500].
Proof.
  intros details. subst details.
  destruct (api_error_details message r) as (A1 & A2 & A3 & A4).
  destruct (part000_error_details message r) as (P1 & P2 & P3).
  repeat split; assumption.
Qed.

Lemma error_details_carried_witness :
  (json (Api.catchError "socket hang up" Res.fresh) ≫= fun payload => payload !! "details")
  = Some "socket hang up"
  /\ (json (Api.catchError "Sign in: private video" Res.fresh)
        ≫= fun payload => payload !! "details") = None.
Proof.
  destruct (error_details_carried "socket hang up" Res.fresh)
    as (_ & _ & H500 & _).
  destruct (error_details_carried "Sign in: private video" Res.fresh)
    as (H403 & _).
  split.
  - destruct H500 as (shown & rest & Hs & Hm & Hl); [reflexivity|].
    rewrite Hs. f_equal.
    assert (Hrest : rest = "").
    { apply (f_equal String.length) in Hm. simpl in Hl.
      assert (Happ : forall a b, String.length (a +:+ b)
                                 = (String.length a + String.length b)%nat).
      { intros a b. induction a as [|x a IH]; [reflexivity|].
        rewrite append_cons. simpl. now rewrite IH. }
      rewrite Happ, Hl in Hm. simpl in Hm. destruct rest; [reflexivity | simpl in Hm; lia]. }
    rewrite Hm, Hrest. now rewrite append_empty_r.
  - apply H403. reflexivity.
Defined.

End ErrorProperties.

Section EmptyCookieFiles.
Import JS.

(** X15.  A cookie file that holds nothing but blank lines and comments, the
    empty file among them, gives the empty header, and the resolver is then
    asked without any headers.  For [src/api/download.js] a comment is a line
    that begins with [#] or [//] once trimmed; for [src/unnamed/part_000], a
    line that begins so as it stands. *)
Theorem comment_only_file_no_cookie (text : string) :
  (Forall (fun l => truthy (trim l) = false \/ startsWith (trim l) "#" = true
                    \/ startsWith (trim l) "//" = true) (split newline text) ->
     Api.loadCookies (Content text) = Normal ""
     /\ Api.requestOptions (join "; " (Api.parseLines (split newline text)))
        = {| ro_headers := None |})
  /\ (Forall (fun l => truthy (trim l) = false \/ startsWith l "#" = true
                       \/ startsWith l "//" = true) (split newline text) ->
     Part000.loadCookies (Content text) = Normal ""
     /\ Part000.requestOptions (join "; " (Part000.parseLines (split newline text)))
        = {| ro_headers := None |}).
Proof.
  split; intros Hall.
  - assert (E : Api.parseLines (split newline text) = []).
    { rewrite api_parseLines_filter, filter_none; [reflexivity|].
      intros l Hl. unfold apiCookieLine.
      destruct (proj1 (List.Forall_forall _ _) Hall l Hl) as [-> | [-> | ->]];
        [reflexivity | now rewrite andb_false_r | now rewrite !andb_false_r]. }
    rewrite api_loadCookies_eq. simpl cookieLines. now rewrite E.
  - assert (E : Part000.parseLines (split newline text) = []).
    { rewrite part000_parseLines_filter, filter_none; [reflexivity|].
      intros l Hl. unfold part000TokenLine.
      destruct (proj1 (List.Forall_forall _ _) Hall l Hl) as [-> | [-> | ->]];
        [reflexivity | now rewrite andb_false_r | now rewrite !andb_false_r]. }
    rewrite part000_loadCookies_eq. simpl cookieLines. now rewrite E.
Qed.

Lemma comment_only_file_no_cookie_witness :
  Api.loadCookies
    (Content ("# Netscape HTTP Cookie File" +:+ String newline ("  " +:+ String newline "")))
  = Normal "".
Proof.
  destruct (comment_only_file_no_cookie
              ("# Netscape HTTP Cookie File" +:+ String newline ("  " +:+ String newline "")))
    as [H _].
  apply H. repeat constructor; (now left) || (right; now left).
Defined.

End EmptyCookieFiles.
